(** * Image ingestion and real-time broadcast pipeline

    A shallow embedding of [server/routes.ts], [server/storage.ts] and the
    request schemas of [shared/schema.ts], and the properties of the
    specification proved (or refuted) against it.

    Conventions of the embedding:
    - a JavaScript string is a [string]; host names, textual IP addresses
      and header values are ASCII, so [toLowerCase] is ASCII lower-casing;
    - a [Buffer] is a [list byte];
    - a JavaScript number that holds an integer is a [Z], [NaN] and
      [undefined] are [None];
    - the outside world (the WHATWG URL parser, the resolver, the remote
      HTTP server, the [sharp] decoder) is a record of oracles, [Env];
    - the values drawn by [randomUUID()] and [new Date()] are inputs of the
      operation that draws them;
    - the mutable state of the process (the [MemStorage] singleton, the
      [clients] set, what was written to each socket, which outgoing
      requests were made) is one record, [Server], threaded through a
      small state-and-exception monad. *)

From Stdlib Require Import ZArith NArith List Bool Ascii String Lia.
From Stdlib Require Import Strings.Byte.
From Stdlib Require Import DecimalString DecimalZ DecimalN.
From stdpp Require Import base option list gmap strings.

Import ListNotations.
Local Open Scope Z_scope.

(** ** JavaScript string and number primitives used by the routes

    These are functions of the language, not of the repository; each is
    written after its ECMAScript definition, on ASCII text. *)

Module JS.

(** [s.split(sep)] for a one-character separator: never the empty list. *)
Fixpoint split (sep : ascii) (s : string) : list string :=
  match s with
  | EmptyString => [EmptyString]
  | String c s' =>
      if Ascii.eqb c sep then EmptyString :: split sep s'
      else match split sep s' with
           | h :: t => String c h :: t
           | [] => [String c EmptyString]
           end
  end.

(** [parts.join(sep)], the inverse used to state results on [split]. *)
Fixpoint join (sep : ascii) (parts : list string) : string :=
  match parts with
  | [] => EmptyString
  | [p] => p
  | p :: ps => p +:+ String sep (join sep ps)
  end.

Definition lower_ascii (c : ascii) : ascii :=
  let n := N_of_ascii c in
  if ((65 <=? n) && (n <=? 90))%N then ascii_of_N (n + 32) else c.

Fixpoint toLowerCase (s : string) : string :=
  match s with
  | EmptyString => EmptyString
  | String c s' => String (lower_ascii c) (toLowerCase s')
  end.

Definition startsWith (s p : string) : bool := String.prefix p s.

(** [s.includes(p)]: [p] occurs at some position of [s]. *)
Fixpoint includes (s p : string) : bool :=
  String.prefix p s ||
  match s with
  | EmptyString => false
  | String _ s' => includes s' p
  end.

(** [arr.pop()] on a fresh array: its last element. *)
Definition pop (l : list string) : option string := last l.

(** Truthiness of an optional string: [undefined] and the empty string are
    falsy. *)
Definition truthy (o : option string) : bool :=
  match o with
  | Some EmptyString | None => false
  | Some _ => true
  end.

(** [a || b] where [b] is a string. *)
Definition or_else (a : option string) (b : string) : string :=
  match a with
  | Some (String c s) => String c s
  | _ => b
  end.

(** [a || b] where [b] may itself be [undefined]. *)
Definition or_else_opt (a b : option string) : option string :=
  if truthy a then a else b.

(** What a template literal prints for a value that may be [undefined]. *)
Definition template (o : option string) : string :=
  match o with
  | Some s => s
  | None => "undefined"
  end.

(** The characters [parseInt] and [Number] skip as white space (the ASCII
    ones: TAB, LF, VT, FF, CR, SPACE). *)
Definition is_space (c : ascii) : bool :=
  let n := N_of_ascii c in
  ((9 <=? n) && (n <=? 13) || (n =? 32))%N.

Fixpoint skip_space (s : string) : string :=
  match s with
  | String c s' => if is_space c then skip_space s' else s
  | EmptyString => s
  end.

(** Value of a character as a digit of the given radix. *)
Definition digit_val (radix : Z) (c : ascii) : option Z :=
  let n := Z.of_N (N_of_ascii c) in
  let v := if (48 <=? n) && (n <=? 57) then n - 48
           else if (97 <=? n) && (n <=? 122) then n - 87
           else if (65 <=? n) && (n <=? 90) then n - 55
           else 36 in
  if v <? radix then Some v else None.

(** The longest prefix of digits, folded into a number; [None] when the
    first character is not a digit. *)
Fixpoint digits_from (radix : Z) (acc : Z) (s : string) : Z :=
  match s with
  | String c s' =>
      match digit_val radix c with
      | Some v => digits_from radix (radix * acc + v) s'
      | None => acc
      end
  | EmptyString => acc
  end.

Definition digits (radix : Z) (s : string) : option Z :=
  match s with
  | String c _ =>
      match digit_val radix c with
      | Some _ => Some (digits_from radix 0 s)
      | None => None
      end
  | EmptyString => None
  end.

Definition signed (s : string) : bool * string :=
  match s with
  | String "-" s' => (true, s')
  | String "+" s' => (false, s')
  | _ => (false, s)
  end.

Definition apply_sign (neg : bool) (o : option Z) : option Z :=
  match o with
  | Some v => Some (if neg then - v else v)
  | None => None
  end.

(** [parseInt(s, 10)]; [None] is [NaN]. The result is the mathematical
    integer; the callers only compare it with small constants, which the
    rounding of large values to a double does not affect. *)
Definition parseInt10 (s : string) : option Z :=
  let (neg, body) := signed (skip_space s) in
  apply_sign neg (digits 10 body).

(** [parseInt(s)] with no radix: hexadecimal after a [0x] prefix. *)
Definition parseInt (s : string) : option Z :=
  let (neg, body) := signed (skip_space s) in
  match body with
  | String "0" (String "x" h) | String "0" (String "X" h) =>
      apply_sign neg (digits 16 h)
  | _ => apply_sign neg (digits 10 body)
  end.

(** [num.toString()] of an integer (below the magnitude at which
    JavaScript switches to exponent notation). *)
Definition toString (n : Z) : string :=
  NilZero.string_of_int (Z.to_int n).

Fixpoint all_digits (s : string) : bool :=
  match s with
  | EmptyString => true
  | String c s' =>
      match digit_val 10 c with
      | Some _ => all_digits s'
      | None => false
      end
  end.

(** [Number(s)] on the strings that reach it in [isPrivateIP]: there every
    part has passed [isIPv4], hence is a plain decimal numeral. The empty
    string is [0]; the other numeric literal forms (surrounding white
    space, signs, hexadecimal, exponents, fractions) are [NaN] here. *)
Definition Number (s : string) : option Z :=
  if all_digits s then Some (digits_from 10 0 s) else None.

(** [x === k] and the comparisons of a possibly-[NaN] number with a
    constant: all false on [NaN]. *)
Definition num_eq (x : option Z) (k : Z) : bool :=
  match x with Some v => v =? k | None => false end.
Definition num_ge (x : option Z) (k : Z) : bool :=
  match x with Some v => k <=? v | None => false end.
Definition num_le (x : option Z) (k : Z) : bool :=
  match x with Some v => v <=? k | None => false end.
Definition num_gt (x : option Z) (k : Z) : bool :=
  match x with Some v => k <? v | None => false end.

End JS.

(** ** The private-address classifier ([routes.ts], [isIPv4], [isPrivateIP]) *)

Definition isIPv4 (str : string) : bool :=
  let parts := JS.split "." str in
  if negb (Nat.eqb (length parts) 4) then false
  else forallb (fun part =>
         let num := JS.parseInt10 part in
         JS.num_ge num 0 && JS.num_le num 255 &&
         match num with
         | Some n => String.eqb part (JS.toString n)
         | None => false
         end) parts.

Definition isPrivateIP (ip : string) : bool :=
  if isIPv4 ip then
    let parts := map JS.Number (JS.split "." ip) in
    let part i := nth i parts None in
    if JS.num_eq (part 0%nat) 127 then true
    else if JS.num_eq (part 0%nat) 10 then true
    else if JS.num_eq (part 0%nat) 172 && JS.num_ge (part 1%nat) 16
            && JS.num_le (part 1%nat) 31 then true
    else if JS.num_eq (part 0%nat) 192 && JS.num_eq (part 1%nat) 168 then true
    else if JS.num_eq (part 0%nat) 169 && JS.num_eq (part 1%nat) 254 then true
    else if JS.num_eq (part 0%nat) 0 then true
    else false
  else
    let ipLower := JS.toLowerCase ip in
    if String.eqb ipLower "::1" || String.eqb ipLower "[::1]" then true
    else if JS.startsWith ipLower "fc" || JS.startsWith ipLower "fd" then true
    else if JS.startsWith ipLower "fe80:" then true
    else if JS.includes ipLower "::ffff:" then true
    else false.

(** ** Base64 as [Buffer] implements it

    [buf.toString('base64')] writes the standard alphabet with padding.
    [Buffer.from(s, 'base64')] is lenient: it also reads the URL-safe
    alphabet, passes over characters that are in neither, stops at the
    first padding character and never throws. *)

Module Base64.

Definition alphabet : string :=
  "ABCDEFGHIJKLMNOPQRSTUVWXYZabcdefghijklmnopqrstuvwxyz0123456789+/".

(** The character of a sextet. *)
Definition char_of (n : N) : ascii :=
  match String.get (N.to_nat n) alphabet with
  | Some c => c
  | None => "="%char
  end.

(** The decoder's table: the standard alphabet and the URL-safe one
    ([-] for 62, [_] for 63); every other character has no value. *)
Definition unbase64 (c : ascii) : option N :=
  let n := N_of_ascii c in
  if ((65 <=? n) && (n <=? 90))%N then Some (n - 65)%N
  else if ((97 <=? n) && (n <=? 122))%N then Some (n - 71)%N
  else if ((48 <=? n) && (n <=? 57))%N then Some (n + 4)%N
  else if ((n =? 43) || (n =? 45))%N then Some 62%N
  else if ((n =? 47) || (n =? 95))%N then Some 63%N
  else None.

Definition byte_of (n : N) : byte :=
  match Byte.of_N (N.land n 255) with
  | Some b => b
  | None => x00
  end.

Definition enc0 (a : N) : N := N.shiftr a 2.
Definition enc1 (a b : N) : N := N.lor (N.shiftl (N.land a 3) 4) (N.shiftr b 4).
Definition enc2 (b c : N) : N := N.lor (N.shiftl (N.land b 15) 2) (N.shiftr c 6).
Definition enc3 (c : N) : N := N.land c 63.

(** [buf.toString('base64')]: three bytes give four characters, the last
    group is padded with [=]. *)
Fixpoint encode (buf : list byte) : string :=
  match buf with
  | [] => EmptyString
  | [a] =>
      let a := Byte.to_N a in
      String (char_of (enc0 a)) (String (char_of (enc1 a 0)) "==")
  | [a; b] =>
      let a := Byte.to_N a in
      let b := Byte.to_N b in
      String (char_of (enc0 a)) (String (char_of (enc1 a b))
        (String (char_of (enc2 b 0)) "="))
  | a :: b :: c :: rest =>
      let a := Byte.to_N a in
      let b := Byte.to_N b in
      let c := Byte.to_N c in
      String (char_of (enc0 a)) (String (char_of (enc1 a b))
        (String (char_of (enc2 b c)) (String (char_of (enc3 c)) (encode rest))))
  end.

(** The sextets of the input: characters outside the table are skipped,
    the first [=] ends the input. *)
Fixpoint sextets (s : string) : list N :=
  match s with
  | EmptyString => []
  | String c s' =>
      if Ascii.eqb c "=" then []
      else match unbase64 c with
           | Some v => v :: sextets s'
           | None => sextets s'
           end
  end.

Definition dec0 (s0 s1 : N) : byte := byte_of (N.lor (N.shiftl s0 2) (N.shiftr s1 4)).
Definition dec1 (s1 s2 : N) : byte := byte_of (N.lor (N.shiftl s1 4) (N.shiftr s2 2)).
Definition dec2 (s2 s3 : N) : byte := byte_of (N.lor (N.shiftl s2 6) s3).

Fixpoint bytes_of (l : list N) : list byte :=
  match l with
  | s0 :: s1 :: s2 :: s3 :: rest =>
      dec0 s0 s1 :: dec1 s1 s2 :: dec2 s2 s3 :: bytes_of rest
  | [s0; s1; s2] => [dec0 s0 s1; dec1 s1 s2]
  | [s0; s1] => [dec0 s0 s1]
  | _ => []
  end.

(** [Buffer.from(s, 'base64')]: the lenient decoder, which never fails. *)
Definition decode (s : string) : list byte := bytes_of (sextets s).

End Base64.

(** ** Data model ([shared/schema.ts]) *)

Module Image.
(** A row of the [images] table; [null] columns are [None] and
    [uploadedAt] is the epoch time in milliseconds. *)
Record t := mk {
  id : string;
  type : string;
  data : string;
  filename : option string;
  format : option string;
  width : option Z;
  height : option Z;
  size : option Z;
  uploadedAt : Z
}.
End Image.

Module InsertImage.
Record t := mk {
  type : string;
  data : string;
  filename : option string;
  format : option string;
  width : option Z;
  height : option Z;
  size : option Z
}.
End InsertImage.

(** The request bodies accepted by [imageUploadSchema]; [MalformedBody] is
    any body that [parse] rejects with a [ZodError]. *)
Record Base64Metadata := {
  meta_filename : option string;
  meta_format : option string
}.

Inductive Body :=
| Base64Body (data : string) (metadata : option Base64Metadata)
| UrlBody (url : string)
| MalformedBody.

(** ** The image store ([server/storage.ts], class [MemStorage]) *)

Module MemStorage.

Record t := mk {
  images : gmap string Image.t;
  currentImageId : option string
}.

(** [new MemStorage()] *)
Definition empty : t := {| images := ∅; currentImageId := None |}.

(** [!this.currentImageId] holds for [undefined] and for the empty string. *)
Definition getCurrentImage (s : t) : option Image.t :=
  match currentImageId s with
  | None | Some EmptyString => None
  | Some i => images s !! i
  end.

(** [storeImage]; [uuid] is the value of [randomUUID()] and [now] that of
    [new Date()]. *)
Definition storeImage (uuid : string) (now : Z) (insertImage : InsertImage.t)
           (s : t) : Image.t * t :=
  let image := {|
    Image.id := uuid;
    Image.type := InsertImage.type insertImage;
    Image.data := InsertImage.data insertImage;
    Image.filename := InsertImage.filename insertImage;
    Image.format := InsertImage.format insertImage;
    Image.width := InsertImage.width insertImage;
    Image.height := InsertImage.height insertImage;
    Image.size := InsertImage.size insertImage;
    Image.uploadedAt := now |} in
  (image, {| images := <[uuid := image]> (images s);
             currentImageId := Some uuid |}).

Definition getImage (i : string) (s : t) : option Image.t := images s !! i.

End MemStorage.

(** ** The process state *)

Inductive ReadyState := CONNECTING | OPEN | CLOSING | CLOSED.

(** The logical messages of the socket protocol. The server builds only
    [image_update]; [ping] is what the client hook sends and [pong] what it
    listens for. *)
Inductive WsMessage :=
| image_update (data : Image.t)
| ping (timestamp : Z)
| pong (timestamp : Z).

(** A [WebSocket] object of the [ws] library, as the routes see it: its
    [readyState] and the frames handed to [send], oldest first. *)
Record Socket := {
  readyState : ReadyState;
  outbox : list WsMessage
}.

Record Server := {
  storage : MemStorage.t;      (* the exported [storage] singleton *)
  clients : gset nat;          (* [clients : Set<WebSocket>], sockets by name *)
  sockets : gmap nat Socket;   (* the socket objects that exist *)
  fetched : list string        (* the URLs passed to [fetch], oldest first *)
}.

Definition init_server : Server :=
  {| storage := MemStorage.empty; clients := ∅; sockets := ∅; fetched := [] |}.

Definition is_open (s : Socket) : bool :=
  match readyState s with OPEN => true | _ => false end.

Definition ws_send (msg : WsMessage) (s : Socket) : Socket :=
  {| readyState := readyState s; outbox := outbox s ++ [msg] |}.

(** What has been sent to socket [w]. *)
Definition sent (st : Server) (w : nat) : list WsMessage :=
  match sockets st !! w with
  | Some s => outbox s
  | None => []
  end.

(** ** The outside world *)

Record SharpMetadata := {
  sharp_width : option Z;
  sharp_height : option Z;
  sharp_format : option string
}.

Record FetchResponse := {
  resp_ok : bool;
  resp_content_type : option string;      (* [headers.get('content-type')] *)
  resp_content_length : option string;    (* [headers.get('content-length')] *)
  resp_body : option (list byte)          (* [arrayBuffer()]; [None]: it rejects *)
}.

Record Env := {
  (** [new URL(s)]: its [protocol] and [hostname]; [None] when it throws. *)
  url_parse : string -> option (string * string);
  (** [dns.lookup(host, {all: true})]: every address; [None] when it rejects. *)
  dns_lookup : string -> option (list string);
  (** [fetch(url, ...)]: the response it resolves to, after any redirect
      the library follows; [None] when it rejects (network error, timeout). *)
  http_fetch : string -> option FetchResponse;
  (** [sharp(buffer).metadata()]; [None] when it throws or rejects. *)
  sharp_metadata : list byte -> option SharpMetadata
}.

(** ** Responses, exceptions and the handler monad *)

Record ResponseData := {
  data_id : string;
  data_width : option Z;
  data_height : option Z;
  data_format : option string;
  data_size : option Z;
  data_timestamp : Z
}.

Record Response := {
  status : Z;
  success : bool;
  message : string;
  payload : option ResponseData
}.

Definition failure (code : Z) (msg : string) : Response :=
  {| status := code; success := false; message := msg; payload := None |}.

Inductive Exn :=
| ZodError
| Error (msg : string).

(** A computation either yields a value, has already sent the response
    ([return res.status(..).json(..)]), or has thrown. *)
Inductive Outcome (A : Type) :=
| Val (a : A)
| Reply (r : Response)
| Throw (e : Exn).
Arguments Val {A} a.
Arguments Reply {A} r.
Arguments Throw {A} e.

Definition M (A : Type) : Type := Server -> Outcome A * Server.

Definition ret {A} (a : A) : M A := fun st => (Val a, st).

Definition bind {A B} (m : M A) (k : A -> M B) : M B :=
  fun st =>
    match m st with
    | (Val a, st') => k a st'
    | (Reply r, st') => (Reply r, st')
    | (Throw e, st') => (Throw e, st')
    end.

Definition reply {A} (r : Response) : M A := fun st => (Reply r, st).
Definition throw {A} (e : Exn) : M A := fun st => (Throw e, st).

Definition try_catch {A} (m : M A) (handler : Exn -> M A) : M A :=
  fun st =>
    match m st with
    | (Throw e, st') => handler e st'
    | other => other
    end.

Definition modify (f : Server -> Server) : M unit := fun st => (Val tt, f st).

Notation "'let*' x := c 'in' k" := (bind c (fun x => k))
  (at level 10, x name, c at level 100, k at level 200).

(** The response of a route whose body is [m]: the value it ends with or the
    response it returned early; an exception that escapes is left to the
    framework ([None]). *)
Definition respond (m : M Response) (st : Server) : option Response * Server :=
  match m st with
  | (Val r, st') => (Some r, st')
  | (Reply r, st') => (Some r, st')
  | (Throw _, st') => (None, st')
  end.

(** ** The broadcast hub ([routes.ts], [wss.on('connection')] and
       [broadcastImageUpdate]) *)

(** The [ws] library has completed the handshake: the socket object exists
    and is [OPEN]; nothing has been written to it. *)
Definition ws_accept (w : nat) (st : Server) : Server :=
  {| storage := storage st;
     clients := clients st;
     sockets := <[w := {| readyState := OPEN; outbox := [] |}]> (sockets st);
     fetched := fetched st |}.

Definition send_to (w : nat) (msg : WsMessage) (st : Server) : Server :=
  {| storage := storage st;
     clients := clients st;
     sockets := alter (ws_send msg) w (sockets st);
     fetched := fetched st |}.

Definition socket_open (st : Server) (w : nat) : bool :=
  match sockets st !! w with
  | Some s => is_open s
  | None => false
  end.

(** The ['connection'] listener. [getCurrentImage()] is read while the
    listener runs and its [then] callback is the next job of the same turn
    of the event loop, so no other listener comes between the two. *)
Definition on_connection (w : nat) (st : Server) : Server :=
  let st1 := {| storage := storage st;
                clients := {[w]} ∪ clients st;
                sockets := sockets st;
                fetched := fetched st |} in
  match MemStorage.getCurrentImage (storage st1) with
  | Some currentImage =>
      if socket_open st1 w then send_to w (image_update currentImage) st1
      else st1
  | None => st1
  end.

Definition clients_delete (w : nat) (st : Server) : Server :=
  {| storage := storage st;
     clients := clients st ∖ {[w]};
     sockets := sockets st;
     fetched := fetched st |}.

(** The library marks the socket [CLOSED] before it emits ['close']. *)
Definition ws_closed (w : nat) (st : Server) : Server :=
  {| storage := storage st;
     clients := clients st;
     sockets := alter (fun s => {| readyState := CLOSED; outbox := outbox s |}) w (sockets st);
     fetched := fetched st |}.

Definition on_close (w : nat) (st : Server) : Server := clients_delete w st.
Definition on_error (w : nat) (st : Server) : Server := clients_delete w st.

(** [clients.forEach(client => { if (client.readyState === OPEN) client.send(message) })] *)
Definition broadcastImageUpdate (image : Image.t) (st : Server) : Server :=
  {| storage := storage st;
     clients := clients st;
     sockets := map_imap (fun w s =>
                  Some (if bool_decide (w ∈ clients st) && is_open s
                        then ws_send (image_update image) s else s))
                  (sockets st);
     fetched := fetched st |}.

(** ** URL validation ([routes.ts], [validateImageUrl]) *)

Record Validation := {
  valid : bool;
  error : option string
}.

Definition rejected (reason : string) : Validation :=
  {| valid := false; error := Some reason |}.

Definition string_in (s : string) (l : list string) : bool :=
  existsb (String.eqb s) l.

Definition validateImageUrl (E : Env) (urlString : string) : Validation :=
  match url_parse E urlString with
  | None => rejected "Invalid URL format"
  | Some (protocol, host) =>
      if negb (string_in protocol ["http:"; "https:"]) then
        rejected "Only HTTP and HTTPS protocols are allowed"
      else
        let hostname := JS.toLowerCase host in
        if String.eqb hostname "localhost" || String.eqb hostname "0.0.0.0" then
          rejected "Localhost URLs are not allowed"
        else if isPrivateIP hostname then
          rejected "Private IP addresses are not allowed"
        else
          let lookupResult :=
            match dns_lookup E hostname with
            | Some addresses => addresses
            | None => []
            end in
          if Nat.eqb (length lookupResult) 0 then
            rejected "Failed to resolve hostname"
          else if existsb isPrivateIP lookupResult then
            rejected "URL resolves to a private IP address"
          else {| valid := true; error := None |}
  end.

(** ** Metadata extraction ([routes.ts], [getImageMetadata]) *)

Record Metadata := {
  md_width : option Z;
  md_height : option Z;
  md_format : option string;
  md_size : Z
}.

Definition buffer_length (buffer : list byte) : Z := Z.of_nat (length buffer).

Definition sharp (E : Env) (buffer : list byte) : M SharpMetadata :=
  match sharp_metadata E buffer with
  | Some m => ret m
  | None => throw (Error "Input buffer contains unsupported image format")
  end.

Definition getImageMetadata (E : Env) (buffer : list byte) : M Metadata :=
  try_catch
    (let* metadata := sharp E buffer in
     ret {| md_width := sharp_width metadata;
            md_height := sharp_height metadata;
            md_format := sharp_format metadata;
            md_size := buffer_length buffer |})
    (fun _ =>
     ret {| md_width := None;
            md_height := None;
            md_format := Some "unknown";
            md_size := buffer_length buffer |}).

(** ** The JSON upload route ([POST /api/v1/image/upload]) *)

Definition MAX_BYTES : Z := 10 * 1024 * 1024.

Fixpoint strip_prefix (p s : string) : option string :=
  match p, s with
  | EmptyString, _ => Some s
  | String a p', String b s' => if Ascii.eqb a b then strip_prefix p' s' else None
  | String _ _, EmptyString => None
  end.

Definition is_lower (c : ascii) : bool :=
  let n := N_of_ascii c in ((97 <=? n) && (n <=? 122))%N.

Fixpoint drop_lower (s : string) : string :=
  match s with
  | String c s' => if is_lower c then drop_lower s' else s
  | EmptyString => s
  end.

(** [data.replace(/^data:image\/[a-z]+;base64,/, '')] *)
Definition strip_data_url (data : string) : string :=
  match strip_prefix "data:image/" data with
  | Some rest =>
      let rest' := drop_lower rest in
      if (String.length rest' <? String.length rest)%nat then
        match strip_prefix ";base64," rest' with
        | Some base64Data => base64Data
        | None => data
        end
      else data
  | None => data
  end.

Definition fetch (E : Env) (url : string) : M FetchResponse :=
  fun st =>
    let st' := {| storage := storage st; clients := clients st;
                  sockets := sockets st; fetched := fetched st ++ [url] |} in
    match http_fetch E url with
    | Some response => (Val response, st')
    | None => (Throw (Error "fetch failed"), st')
    end.

Definition arrayBuffer (response : FetchResponse) : M (list byte) :=
  match resp_body response with
  | Some bytes => ret bytes
  | None => throw (Error "body read failed")
  end.

Definition parse (body : Body) : M Body :=
  match body with
  | MalformedBody => throw ZodError
  | _ => ret body
  end.

Definition storeImage (uuid : string) (now : Z) (insertImage : InsertImage.t)
  : M Image.t :=
  fun st =>
    let (image, storage') := MemStorage.storeImage uuid now insertImage (storage st) in
    (Val image, {| storage := storage'; clients := clients st;
                   sockets := sockets st; fetched := fetched st |}).

Definition data_url (format : option string) (imageBuffer : list byte) : string :=
  "data:image/" +:+ JS.template format +:+ ";base64," +:+ Base64.encode imageBuffer.

Definition uploaded (storedImage : Image.t) : Response :=
  {| status := 200;
     success := true;
     message := "Image uploaded successfully";
     payload := Some {| data_id := Image.id storedImage;
                        data_width := Image.width storedImage;
                        data_height := Image.height storedImage;
                        data_format := Image.format storedImage;
                        data_size := Image.size storedImage;
                        data_timestamp := Image.uploadedAt storedImage |} |}.

(** The two branches of the route: the image bytes, the file name and the
    declared format of the request. *)
Definition read_base64 (data : string) (metadata : option Base64Metadata)
  : M (list byte * string * string) :=
  let base64Data := strip_data_url data in
  let imageBuffer := Base64.decode base64Data in
  let filename := JS.or_else (metadata ≫= meta_filename) "base64-image" in
  let format := JS.or_else (metadata ≫= meta_format) "unknown" in
  ret (imageBuffer, filename, format).

Definition read_url (E : Env) (url : string) : M (list byte * string * string) :=
  let validation := validateImageUrl E url in
  if negb (valid validation) then
    reply (failure 400 (JS.or_else (error validation) "Invalid URL"))
  else
    let* response := fetch E url in
    if negb (resp_ok response) then
      reply (failure 400 "Failed to fetch image from URL")
    else
      match resp_content_type response with
      | Some (String c ct) =>
          let contentType := String c ct in
          if negb (JS.startsWith contentType "image/") then
            reply (failure 400 "URL does not point to an image (invalid content-type)")
          else if JS.truthy (resp_content_length response) &&
                  JS.num_gt (resp_content_length response ≫= JS.parseInt) MAX_BYTES then
            reply (failure 400 "Image too large (max 10MB)")
          else
            let* bytes := arrayBuffer response in
            if MAX_BYTES <? buffer_length bytes then
              reply (failure 400 "Image too large (max 10MB)")
            else
              let filename := JS.or_else (JS.pop (JS.split "/" url)) "url-image" in
              let format := JS.or_else (nth_error (JS.split "/" contentType) 1) "unknown" in
              ret (bytes, filename, format)
      | _ => reply (failure 400 "URL does not point to an image (invalid content-type)")
      end.

Definition type_of (validatedData : Body) : string :=
  match validatedData with
  | UrlBody _ => "url"
  | _ => "base64"
  end.

Definition upload_json_try (E : Env) (uuid : string) (now : Z) (body : Body)
  : M Response :=
  let* validatedData := parse body in
  let* input := match validatedData with
           | Base64Body data metadata => read_base64 data metadata
           | UrlBody url => read_url E url
           | MalformedBody => throw ZodError
           end in
  let '(imageBuffer, filename, format) := input in
  let* metadata := getImageMetadata E imageBuffer in
  let base64String := data_url (md_format metadata) imageBuffer in
  let* storedImage := storeImage uuid now
    {| InsertImage.type := type_of validatedData;
       InsertImage.data := base64String;
       InsertImage.filename := Some filename;
       InsertImage.format := Some (JS.or_else (md_format metadata) format);
       InsertImage.width := md_width metadata;
       InsertImage.height := md_height metadata;
       InsertImage.size := Some (md_size metadata) |} in
  let* _ := modify (broadcastImageUpdate storedImage) in
  ret (uploaded storedImage).

Definition upload_json (E : Env) (uuid : string) (now : Z) (body : Body)
  : Server -> option Response * Server :=
  respond
    (try_catch (upload_json_try E uuid now body)
       (fun e => match e with
                 | ZodError => reply (failure 400 "Invalid request format")
                 | Error _ => ret (failure 500 "Internal server error")
                 end)).

(** ** The multipart route ([POST /api/v1/image/upload/multipart]) *)

Definition allowedMimes : list string :=
  ["image/jpeg"; "image/png"; "image/gif"; "image/webp"].

(** The file part of a multipart request, as sent. *)
Record FilePart := {
  originalname : string;
  mimetype : string;
  content : list byte
}.

(** [upload.single('image')] with the options of the source: the
    [fileFilter] sees the part's headers before its bytes, then the
    [fileSize] limit applies to the bytes (a file of exactly that many
    bytes is taken to pass); a refusal goes to [next(err)] and the route
    handler does not run. [req.file] is [undefined] when the
    request has no such part. *)
Definition upload_single (part : option FilePart) : string + option FilePart :=
  match part with
  | None => inr None
  | Some file =>
      if negb (string_in (mimetype file) allowedMimes) then
        inl "Invalid file type. Only JPEG, PNG, GIF, and WebP are allowed."
      else if MAX_BYTES <? buffer_length (content file) then
        inl "File too large"
      else inr (Some file)
  end.

Definition upload_multipart_try (E : Env) (uuid : string) (now : Z)
           (file : option FilePart) : M Response :=
  match file with
  | None => reply (failure 400 "No image file provided")
  | Some file =>
      let imageBuffer := content file in
      let* metadata := getImageMetadata E imageBuffer in
      let base64String := data_url (md_format metadata) imageBuffer in
      let* storedImage := storeImage uuid now
        {| InsertImage.type := "upload";
           InsertImage.data := base64String;
           InsertImage.filename := Some (originalname file);
           InsertImage.format :=
             JS.or_else_opt (md_format metadata)
                            (nth_error (JS.split "/" (mimetype file)) 1);
           InsertImage.width := md_width metadata;
           InsertImage.height := md_height metadata;
           InsertImage.size := Some (md_size metadata) |} in
      let* _ := modify (broadcastImageUpdate storedImage) in
      ret (uploaded storedImage)
  end.

(** The result of the route: the error handed to the framework by the
    middleware, or the handler's response. *)
Definition upload_multipart (E : Env) (uuid : string) (now : Z)
           (part : option FilePart) (st : Server)
  : (string + option Response) * Server :=
  match upload_single part with
  | inl err => (inl err, st)
  | inr file =>
      let (r, st') :=
        respond (try_catch (upload_multipart_try E uuid now file)
                   (fun _ => ret (failure 500 "Internal server error"))) st in
      (inr r, st')
  end.

(** [GET /api/v1/image/current] *)
Definition get_current (st : Server) : Z * option Image.t :=
  match MemStorage.getCurrentImage (storage st) with
  | None => (404, None)
  | Some currentImage => (200, Some currentImage)
  end.

(** ** What happens to the process *)

Inductive Event :=
| Connection (w : nat)                 (* a client completed the handshake *)
| Closed (w : nat)                     (* ['close'] on socket [w] *)
| Errored (w : nat)                    (* ['error'] on socket [w] *)
| Received (w : nat) (m : WsMessage)   (* a frame arrived on socket [w] *)
| Elapsed (ms : Z)                     (* time passed *)
| PostJson (uuid : string) (now : Z) (body : Body)
| PostMultipart (uuid : string) (now : Z) (part : option FilePart).

(** The listeners the source registers. It registers none for ['message']
    and starts no timer, so a received frame and the passing of time leave
    the state as it is. *)
Definition step (E : Env) (ev : Event) (st : Server) : Server :=
  match ev with
  | Connection w => on_connection w (ws_accept w st)
  | Closed w => on_close w (ws_closed w st)
  | Errored w => on_error w st
  | Received _ _ => st
  | Elapsed _ => st
  | PostJson uuid now body => snd (upload_json E uuid now body st)
  | PostMultipart uuid now part => snd (upload_multipart E uuid now part st)
  end.

Definition run (E : Env) (evs : list Event) (st : Server) : Server :=
  fold_left (fun st ev => step E ev st) evs st.

(** ** The address classes as the specification names them

    The specification lists the private classes by address range. The
    definitions below read an address the way the ranges are meant: a
    dotted quad as four octets, an IPv6 text (RFC 4291, section 2.2, with
    [::] compression and an optional dotted-quad tail) as eight 16-bit
    groups. They are compared with [isPrivateIP], which works on the text. *)

Module SpecAddr.

(** A decimal octet: digits only, no leading zero, at most 255. *)
Definition octet (s : string) : option Z :=
  match s with
  | EmptyString => None
  | String "0" (String _ _) => None
  | _ =>
      if JS.all_digits s then
        let v := JS.digits_from 10 0 s in
        if v <=? 255 then Some v else None
      else None
  end.

Definition ipv4 (s : string) : option (list Z) :=
  match JS.split "." s with
  | [a; b; c; d] =>
      match octet a, octet b, octet c, octet d with
      | Some a, Some b, Some c, Some d => Some [a; b; c; d]
      | _, _, _, _ => None
      end
  | _ => None
  end.

(** 127.0.0.0/8, 10.0.0.0/8, 172.16.0.0/12, 192.168.0.0/16,
    169.254.0.0/16 and 0.0.0.0/8, on the first two octets. *)
Definition private_v4 (a b : Z) : bool :=
  (a =? 127) || (a =? 10) || ((a =? 172) && (16 <=? b) && (b <=? 31))
  || ((a =? 192) && (b =? 168)) || ((a =? 169) && (b =? 254)) || (a =? 0).

Fixpoint all_hex (s : string) : bool :=
  match s with
  | EmptyString => true
  | String c s' =>
      match JS.digit_val 16 c with
      | Some _ => all_hex s'
      | None => false
      end
  end.

Definition hextet (s : string) : option Z :=
  match String.length s with
  | 1%nat | 2%nat | 3%nat | 4%nat =>
      if all_hex s then Some (JS.digits_from 16 0 s) else None
  | _ => None
  end.

(** The groups of a colon-separated run; where allowed, a dotted quad in
    last position stands for two groups. *)
Fixpoint groups (tail_v4 : bool) (parts : list string) : option (list Z) :=
  match parts with
  | [] => Some []
  | [p] =>
      match hextet p with
      | Some g => Some [g]
      | None =>
          if tail_v4 then
            match ipv4 p with
            | Some [a; b; c; d] => Some [256 * a + b; 256 * c + d]
            | _ => None
            end
          else None
      end
  | p :: ps =>
      match hextet p, groups tail_v4 ps with
      | Some g, Some gs => Some (g :: gs)
      | _, _ => None
      end
  end.

(** The text before and after the first [::]. *)
Fixpoint cut (s : string) : option (string * string) :=
  match s with
  | EmptyString => None
  | String ":" (String ":" r) => Some (EmptyString, r)
  | String c s' =>
      match cut s' with
      | Some (l, r) => Some (String c l, r)
      | None => None
      end
  end.

Definition side (tail_v4 : bool) (s : string) : option (list Z) :=
  match s with
  | EmptyString => Some []
  | _ => groups tail_v4 (JS.split ":" s)
  end.

Definition ipv6 (s : string) : option (list Z) :=
  match cut s with
  | None =>
      match groups true (JS.split ":" s) with
      | Some gs => if Nat.eqb (length gs) 8 then Some gs else None
      | None => None
      end
  | Some (l, r) =>
      match side false l, side true r with
      | Some gl, Some gr =>
          if Nat.leb (length gl + length gr) 7
          then Some (gl ++ repeat 0 (8 - (length gl + length gr)) ++ gr)
          else None
      | _, _ => None
      end
  end.

(** Loopback [::1], unique-local fc00::/7, link-local fe80::/10 and the
    IPv4-mapped block ::ffff:0:0/96. *)
Definition private_v6 (g : list Z) : bool :=
  match g with
  | [g0; g1; g2; g3; g4; g5; g6; g7] =>
      (forallb (Z.eqb 0) [g0; g1; g2; g3; g4; g5; g6] && (g7 =? 1))
      || (Z.land g0 0xfe00 =? 0xfc00)
      || (Z.land g0 0xffc0 =? 0xfe80)
      || (forallb (Z.eqb 0) [g0; g1; g2; g3; g4] && (g5 =? 0xffff))
  | _ => false
  end.

Definition is_private (address : string) : bool :=
  match ipv4 address with
  | Some [a; b; _; _] => private_v4 a b
  | Some _ => false
  | None =>
      match ipv6 (JS.toLowerCase address) with
      | Some g => private_v6 g
      | None => false
      end
  end.

End SpecAddr.

(** ** Vocabulary of the statements *)

(** The dotted-quad text of four numbers, each printed by [toString]. *)
Definition dotted (a b c d : Z) : string :=
  JS.join "." [JS.toString a; JS.toString b; JS.toString c; JS.toString d].

Definition octets (a b c d : Z) : Prop :=
  0 <= a <= 255 /\ 0 <= b <= 255 /\ 0 <= c <= 255 /\ 0 <= d <= 255.

(** The tests [isPrivateIP] makes on the lower-cased text of a string that
    is not a dotted quad. *)
Definition textual_private (t : string) : bool :=
  String.eqb t "::1" || String.eqb t "[::1]"
  || JS.startsWith t "fc" || JS.startsWith t "fd"
  || JS.startsWith t "fe80:"
  || JS.includes t "::ffff:".

(** The texts that start like an address of fe80::/10, whose first group
    runs from fe80 to febf. *)
Definition link_local_text (t : string) : bool :=
  JS.startsWith t "fe8" || JS.startsWith t "fe9"
  || JS.startsWith t "fea" || JS.startsWith t "feb".

(** A text without the separator. *)
Fixpoint free_of_sep (sep : ascii) (s : string) : bool :=
  match s with
  | EmptyString => true
  | String c s' => negb (Ascii.eqb c sep) && free_of_sep sep s'
  end.

(** What [isIPv4] asks of each part. *)
Definition part_ok (part : string) : bool :=
  let num := JS.parseInt10 part in
  JS.num_ge num 0 && JS.num_le num 255 &&
  match num with
  | Some n => String.eqb part (JS.toString n)
  | None => false
  end.

(** The decimal text of an octet has no dot, passes the part test and is
    read back by [Number]. *)
Definition octet_text_ok (n : Z) : bool :=
  free_of_sep "." (JS.toString n)
  && part_ok (JS.toString n)
  && match JS.Number (JS.toString n) with
     | Some m => m =? n
     | None => false
     end.

(** The texts on which the link-local test of the source and the range
    fe80::/10 agree: those that do not start like an address of the range,
    and those that start with [fe80:]. *)
Definition link_local_agrees (t : string) : bool :=
  negb (link_local_text t) || JS.startsWith t "fe80:".

(** A commit: the identifier and the date drawn for it, and the record
    handed to [storeImage]. *)
Definition Commit : Type := string * Z * InsertImage.t.


(** The commits of a list, in order: the images returned and the store
    they leave. *)
Fixpoint commit_all (cs : list Commit) (s : MemStorage.t)
  : list Image.t * MemStorage.t :=
  match cs with
  | [] => ([], s)
  | (uuid, now, insertImage) :: cs' =>
      let (image, s') := MemStorage.storeImage uuid now insertImage s in
      let (stored, s'') := commit_all cs' s' in
      (image :: stored, s'')
  end.

(** The record [getImageMetadata] resolves to (see [getImageMetadata_total]). *)
Definition metadata_of (E : Env) (buffer : list byte) : Metadata :=
  match sharp_metadata E buffer with
  | Some m => {| md_width := sharp_width m;
                 md_height := sharp_height m;
                 md_format := sharp_format m;
                 md_size := buffer_length buffer |}
  | None => {| md_width := None;
               md_height := None;
               md_format := Some "unknown";
               md_size := buffer_length buffer |}
  end.

(** The state after [image] was stored under its identifier, made current
    and fanned out. *)
Definition committed (image : Image.t) (st : Server) : Server :=
  broadcastImageUpdate image
    {| storage := {| MemStorage.images :=
                       <[Image.id image := image]> (MemStorage.images (storage st));
                     MemStorage.currentImageId := Some (Image.id image) |};
       clients := clients st;
       sockets := sockets st;
       fetched := fetched st |}.

(** The state after one more URL was handed to [fetch]. *)
Definition requested (url : string) (st : Server) : Server :=
  {| storage := storage st; clients := clients st;
     sockets := sockets st; fetched := fetched st ++ [url] |}.

(** The raw bytes a JSON request brings in: decoded from the inline data,
    or the body of the response to the fetch. *)
Definition received (E : Env) (body : Body) : option (list byte) :=
  match body with
  | Base64Body data _ => Some (Base64.decode (strip_data_url data))
  | UrlBody url => http_fetch E url ≫= resp_body
  | MalformedBody => None
  end.

(** The format a JSON request declares: the [format] of the inline
    metadata, or the subtype of the response's content type; ["unknown"]
    when there is none. *)
Definition declared_format (E : Env) (body : Body) : string :=
  match body with
  | Base64Body _ metadata => JS.or_else (metadata ≫= meta_format) "unknown"
  | UrlBody url =>
      JS.or_else
        (contentType ← http_fetch E url ≫= resp_content_type;
         nth_error (JS.split "/" contentType) 1)
        "unknown"
  | MalformedBody => "unknown"
  end.


(** The image record the JSON route builds once the bytes are in hand. *)
Definition finish (E : Env) (uuid : string) (now : Z) (type : string)
           (imageBuffer : list byte) (filename format : string) : Image.t :=
  let metadata := metadata_of E imageBuffer in
  {| Image.id := uuid;
     Image.type := type;
     Image.data := data_url (md_format metadata) imageBuffer;
     Image.filename := Some filename;
     Image.format := Some (JS.or_else (md_format metadata) format);
     Image.width := md_width metadata;
     Image.height := md_height metadata;
     Image.size := Some (md_size metadata);
     Image.uploadedAt := now |}.

(** The image record the multipart route builds. *)
Definition finish_upload (E : Env) (uuid : string) (now : Z) (file : FilePart)
  : Image.t :=
  let metadata := metadata_of E (content file) in
  {| Image.id := uuid;
     Image.type := "upload";
     Image.data := data_url (md_format metadata) (content file);
     Image.filename := Some (originalname file);
     Image.format := JS.or_else_opt (md_format metadata)
                       (nth_error (JS.split "/" (mimetype file)) 1);
     Image.width := md_width metadata;
     Image.height := md_height metadata;
     Image.size := Some (md_size metadata);
     Image.uploadedAt := now |}.

(** The events that neither commit an image nor concern socket [w] itself. *)
Definition quiet_for (w : nat) (ev : Event) : bool :=
  match ev with
  | Received _ _ | Elapsed _ => true
  | Connection w' | Closed w' | Errored w' => negb (Nat.eqb w' w)
  | PostJson _ _ _ | PostMultipart _ _ _ => false
  end.

(** The events that take socket [w] out of the registry in the source. *)
Definition drops (w : nat) (ev : Event) : bool :=
  match ev with
  | Closed w' | Errored w' => Nat.eqb w' w
  | _ => false
  end.

(** Socket [w] is registered, open, has been sent nothing, and the store has
    no current image. *)
Definition waiting (w : nat) (st : Server) : Prop :=
  w ∈ clients st
  /\ sockets st !! w = Some {| readyState := OPEN; outbox := [] |}
  /\ MemStorage.getCurrentImage (storage st) = None.

(** ** A sample world

    One public host that serves a four-byte TIFF header as [image/tiff],
    one host name that resolves to a public and a private address, and a
    decoder that knows the TIFF header only. *)

Definition tiff_header : list byte := [x49; x49; x2a; x00].

Definition sample_env : Env :=
  {| url_parse := fun s =>
       if String.eqb s "http://cdn.example/scan.tiff"
       then Some ("http:", "cdn.example")
       else if String.eqb s "http://intranet.example/logo.png"
       then Some ("http:", "intranet.example")
       else None;
     dns_lookup := fun host =>
       if String.eqb host "cdn.example" then Some ["93.184.216.34"]
       else if String.eqb host "intranet.example"
       then Some ["93.184.216.34"; "10.0.0.5"]
       else None;
     http_fetch := fun url =>
       if String.eqb url "http://cdn.example/scan.tiff"
       then Some {| resp_ok := true;
                    resp_content_type := Some "image/tiff";
                    resp_content_length := Some "4";
                    resp_body := Some tiff_header |}
       else None;
     sharp_metadata := fun buffer =>
       match buffer with
       | [x49; x49; x2a; x00] =>
           Some {| sharp_width := Some 1;
                   sharp_height := Some 1;
                   sharp_format := Some "tiff" |}
       | _ => None
       end |}.

(** A second world: a host name whose answer mixes a public address with
    [fe90::1], an address of the link-local range fe80::/10. *)
Definition mixed_env : Env :=
  {| url_parse := fun s =>
       if String.eqb s "http://mixed.example/scan.tiff"
       then Some ("http:", "mixed.example")
       else None;
     dns_lookup := fun host =>
       if String.eqb host "mixed.example"
       then Some ["93.184.216.34"; "fe90::1"]
       else None;
     http_fetch := fun url =>
       if String.eqb url "http://mixed.example/scan.tiff"
       then Some {| resp_ok := true;
                    resp_content_type := Some "image/tiff";
                    resp_content_length := Some "4";
                    resp_body := Some tiff_header |}
       else None;
     sharp_metadata := sharp_metadata sample_env |}.

Definition png_hint : option Base64Metadata :=
  Some {| meta_filename := None; meta_format := Some "png" |}.

Definition sample_insert (data : string) : InsertImage.t :=
  {| InsertImage.type := "base64";
     InsertImage.data := data;
     InsertImage.filename := None;
     InsertImage.format := Some "png";
     InsertImage.width := None;
     InsertImage.height := None;
     InsertImage.size := None |}.

(** [s.slice(n)]: the text after the first [n] characters. *)
Fixpoint slice (n : nat) (s : string) : string :=
  match n, s with
  | S n', String _ s' => slice n' s'
  | _, _ => s
  end.

(** The header a stored payload starts with. *)
Definition data_url_header (format : option string) : string :=
  "data:image/" +:+ JS.template format +:+ ";base64,".

(** ** The client hook ([useWebSocket])

    The state the hook keeps with [useState], and what its listeners do to
    it. A frame is what [JSON.parse(event.data)] yields, taken as the
    logical message that was serialised, [None] when it throws; the hook
    acts on the types [image_update] and [pong] and only counts any
    other. *)

Inductive ConnectionStatus := connecting | connected | disconnected.

Module Hook.

Record t := mk {
  currentImage : option Image.t;
  connectionStatus : ConnectionStatus;
  messagesReceived : Z;
  lastPing : option Z;
  uptime : string
}.

(** The initial values of the [useState] calls. *)
Definition initial : t :=
  {| currentImage := None;
     connectionStatus := connecting;
     messagesReceived := 0;
     lastPing := None;
     uptime := "0s" |}.

(** [ws.onopen]: the status becomes ['connected'] and a ping stamped with
    [Date.now()] is sent. *)
Definition onopen (now : Z) (h : t) : t * list WsMessage :=
  ({| currentImage := currentImage h;
      connectionStatus := connected;
      messagesReceived := messagesReceived h;
      lastPing := lastPing h;
      uptime := uptime h |},
   [ping now]).

(** [ws.onmessage], [now] being [Date.now()]. A frame that does not parse
    is logged and changes nothing. *)
Definition onmessage (now : Z) (frame : option WsMessage) (h : t) : t :=
  match frame with
  | None => h
  | Some message =>
      {| currentImage :=
           match message with
           | image_update data => Some data
           | _ => currentImage h
           end;
         connectionStatus := connectionStatus h;
         messagesReceived := messagesReceived h + 1;
         lastPing :=
           match message with
           | pong timestamp => Some (now - timestamp)
           | _ => lastPing h
           end;
         uptime := uptime h |}
  end.

(** What [ws.onclose] and [ws.onerror] do to the state; the timer by which
    the former reconnects is not part of it. *)
Definition ondisconnect (h : t) : t :=
  {| currentImage := currentImage h;
     connectionStatus := disconnected;
     messagesReceived := messagesReceived h;
     lastPing := lastPing h;
     uptime := uptime h |}.

(** The text the one-second interval computes from
    [elapsed = Date.now() - startTime]. *)
Definition uptime_text (elapsed : Z) : string :=
  let seconds := elapsed / 1000 in
  let minutes := seconds / 60 in
  let hours := minutes / 60 in
  if 0 <? hours then
    JS.toString hours +:+ "h " +:+ JS.toString (Z.rem minutes 60) +:+ "m"
  else if 0 <? minutes then
    JS.toString minutes +:+ "m " +:+ JS.toString (Z.rem seconds 60) +:+ "s"
  else JS.toString seconds +:+ "s".

(** The one-second interval: [setUptime] with that text. *)
Definition tick (startTime now : Z) (h : t) : t :=
  {| currentImage := currentImage h;
     connectionStatus := connectionStatus h;
     messagesReceived := messagesReceived h;
     lastPing := lastPing h;
     uptime := uptime_text (now - startTime) |}.

(** The hook after the frames of a list arrived in order, each at its own
    time. *)
Definition receive_all (frames : list (Z * WsMessage)) (h : t) : t :=
  fold_left (fun h f => onmessage (fst f) (Some (snd f)) h) frames h.

End Hook.

(** ** Further vocabulary *)

Definition is_update (m : WsMessage) : bool :=
  match m with
  | image_update _ => true
  | _ => false
  end.

(** The image of the last [image_update] among some frames. *)
Definition last_update (frames : list WsMessage) : option Image.t :=
  fold_left (fun acc m =>
               match m with
               | image_update data => Some data
               | _ => acc
               end) frames None.

Definition is_post (ev : Event) : bool :=
  match ev with
  | PostJson _ _ _ | PostMultipart _ _ _ => true
  | _ => false
  end.

(** The identifier drawn for an upload is not the empty string. *)
Definition uuid_ok (ev : Event) : bool :=
  match ev with
  | PostJson EmptyString _ _ | PostMultipart EmptyString _ _ => false
  | _ => true
  end.


(** The image an event commits in a state: the one stored under the
    identifier of an upload that is answered with 200. *)
Definition committed_by (E : Env) (ev : Event) (st : Server) : option Image.t :=
  match ev with
  | PostJson uuid now body =>
      match upload_json E uuid now body st with
      | (Some r, st') =>
          if status r =? 200 then MemStorage.getImage uuid (storage st') else None
      | (None, _) => None
      end
  | PostMultipart uuid now part =>
      match upload_multipart E uuid now part st with
      | (inr (Some r), st') =>
          if status r =? 200 then MemStorage.getImage uuid (storage st') else None
      | _ => None
      end
  | _ => None
  end.

(** The images committed along a run, oldest first. *)
Fixpoint commits_of (E : Env) (evs : list Event) (st : Server) : list Image.t :=
  match evs with
  | [] => []
  | ev :: evs' =>
      match committed_by E ev st with
      | Some image => image :: commits_of E evs' (step E ev st)
      | None => commits_of E evs' (step E ev st)
      end
  end.

(** What every stored image satisfies (see [stored_images_well_formed]). *)
Definition well_formed (i : string) (image : Image.t) : Prop :=
  Image.id image = i
  /\ (exists format buffer,
        Image.data image = data_url format buffer
        /\ Image.size image = Some (buffer_length buffer)
        /\ (Image.type image = "base64"
            \/ ((Image.type image = "url" \/ Image.type image = "upload")
                /\ buffer_length buffer <= MAX_BYTES)))
  /\ (exists c f, Image.format image = Some (String c f))
  /\ (exists name, Image.filename image = Some name).

(** A state that differs from [st] at most by one more fetch, of a URL the
    validator has accepted. *)
Definition steady (E : Env) (st st0 : Server) : Prop :=
  storage st0 = storage st
  /\ clients st0 = clients st
  /\ sockets st0 = sockets st
  /\ (fetched st0 = fetched st
      \/ exists url, fetched st0 = fetched st ++ [url]
                     /\ valid (validateImageUrl E url) = true).

(** The four properties of a state that every event preserves. *)
Definition only_updates (st : Server) : Prop :=
  forall w, forallb is_update (sent st w) = true.

Definition up_to_date (st : Server) : Prop :=
  forall w,
    w ∈ clients st -> socket_open st w = true ->
    last_update (sent st w) = MemStorage.getCurrentImage (storage st).

Definition fetched_valid (E : Env) (st : Server) : Prop :=
  forall url, In url (fetched st) -> valid (validateImageUrl E url) = true.

Definition store_well_formed (st : Server) : Prop :=
  forall i image,
    MemStorage.getImage i (storage st) = Some image -> well_formed i image.

(** The character of a decimal digit. *)
Definition digit_ascii (v : Z) : ascii := ascii_of_N (Z.to_N (48 + v)).

(** Where the specification's octet reads a number, [isIPv4] accepts the
    part. *)
Definition octet_accepted (s : string) : bool :=
  match SpecAddr.octet s with
  | Some _ => part_ok s
  | None => true
  end.

(** The specification's octet reads the decimal text of [n] as [n]. *)
Definition octet_reads (n : Z) : bool :=
  match SpecAddr.octet (JS.toString n) with
  | Some m => m =? n
  | None => false
  end.

(** The handshake of socket [w]. *)
Definition joins (w : nat) (ev : Event) : bool :=
  match ev with
  | Connection w' => Nat.eqb w' w
  | _ => false
  end.

Definition has_id (i : string) (image : Image.t) : bool :=
  String.eqb (Image.id image) i.

Fixpoint all_lower (s : string) : bool :=
  match s with
  | EmptyString => true
  | String c s' => is_lower c && all_lower s'
  end.

(** * Properties *)

(** ** The embedding on sample inputs *)

Example isIPv4_ex1 : isIPv4 "10.0.0.5" = true. Proof. reflexivity. Qed.
Example isIPv4_ex2 : isIPv4 "010.0.0.5" = false. Proof. reflexivity. Qed.
Example isIPv4_ex3 : isIPv4 "1.2.3" = false. Proof. reflexivity. Qed.
Example isIPv4_ex4 : isIPv4 "1.2.3.256" = false. Proof. reflexivity. Qed.
Example isPrivateIP_ex1 : isPrivateIP "10.0.0.5" = true. Proof. reflexivity. Qed.
Example isPrivateIP_ex2 : isPrivateIP "93.184.216.34" = false. Proof. reflexivity. Qed.
Example isPrivateIP_ex3 : isPrivateIP "::ffff:192.0.2.1" = true. Proof. reflexivity. Qed.
Example isPrivateIP_ex4 : isPrivateIP "172.32.0.1" = false. Proof. reflexivity. Qed.
Example isPrivateIP_ex5 : isPrivateIP "FE80::1" = true. Proof. reflexivity. Qed.
Example base64_ex1 : Base64.encode [x4d; x61; x6e] = "TWFu". Proof. reflexivity. Qed.
Example base64_ex2 : Base64.encode [x4d; x61] = "TWE=". Proof. reflexivity. Qed.
Example base64_ex3 : Base64.encode [x4d] = "TQ==". Proof. reflexivity. Qed.
Example base64_ex4 : Base64.decode "TWE=" = [x4d; x61]. Proof. reflexivity. Qed.
Example base64_ex5 : Base64.decode "T W-_F u" = Base64.decode "TW+/Fu". Proof. reflexivity. Qed.
Example is_private_ex1 : SpecAddr.is_private "10.0.0.5" = true. Proof. reflexivity. Qed.
Example is_private_ex2 : SpecAddr.is_private "::1" = true. Proof. reflexivity. Qed.
Example is_private_ex3 : SpecAddr.is_private "fd12:3456::1" = true. Proof. reflexivity. Qed.
Example is_private_ex4 : SpecAddr.is_private "fe80::1" = true. Proof. reflexivity. Qed.
Example is_private_ex5 : SpecAddr.is_private "::ffff:192.0.2.1" = true. Proof. reflexivity. Qed.
Example is_private_ex6 : SpecAddr.is_private "2001:db8::1" = false. Proof. reflexivity. Qed.
Example is_private_ex7 : SpecAddr.is_private "93.184.216.34" = false. Proof. reflexivity. Qed.
Example ipv6_ex1 : SpecAddr.ipv6 "1:2:3:4:5:6:7:8" = Some [1; 2; 3; 4; 5; 6; 7; 8]. Proof. reflexivity. Qed.
Example ipv6_ex2 : SpecAddr.ipv6 "1::8" = Some [1; 0; 0; 0; 0; 0; 0; 8]. Proof. reflexivity. Qed.
Example ipv6_ex3 : SpecAddr.ipv6 "1::2::3" = None. Proof. reflexivity. Qed.
Example ipv6_ex4 : SpecAddr.ipv6 "::ffff:1.2.3.4" = Some [0; 0; 0; 0; 0; 65535; 258; 772]. Proof. reflexivity. Qed.

(** ** Checking a property of small numbers by running it on all of them *)

Section Enumeration.

Lemma forallb_below_N (k : nat) (P : N -> bool) :
  forallb P (map N.of_nat (seq 0 k)) = true ->
  forall n, (n < N.of_nat k)%N -> P n = true.
Proof.
  intros Hall n Hn.
  rewrite forallb_forall in Hall. apply Hall.
  rewrite <- (N2Nat.id n). apply in_map, in_seq. lia.
Qed.

Lemma forallb_below_Z (k : nat) (P : Z -> bool) :
  forallb P (map Z.of_nat (seq 0 k)) = true ->
  forall n, 0 <= n < Z.of_nat k -> P n = true.
Proof.
  intros Hall n Hn.
  rewrite forallb_forall in Hall. apply Hall.
  rewrite <- (Z2Nat.id n) by lia. apply in_map, in_seq. lia.
Qed.

End Enumeration.

(** ** Base64: what [toString('base64')] writes, [Buffer.from] reads back *)

Module Base64Facts.
Import Base64.

Lemma to_N_lt (x : byte) : (Byte.to_N x < N.of_nat 256)%N.
Proof. pose proof (Byte.to_N_bounded x). lia. Qed.

Lemma byte_of_to_N (x : byte) : byte_of (Byte.to_N x) = x.
Proof.
  unfold byte_of.
  assert (H : N.land (Byte.to_N x) 255 = Byte.to_N x).
  { apply N.eqb_eq.
    apply (forallb_below_N 256 (fun n => N.land n 255 =? n)%N);
      [vm_compute; reflexivity | apply to_N_lt]. }
  rewrite H, Byte.of_to_N. reflexivity.
Qed.

(** Every sextet is written as a character that reads back as itself and
    is not the padding character. *)
Lemma char_of_spec (n : N) :
  (n < 64)%N ->
  unbase64 (char_of n) = Some n /\ Ascii.eqb (char_of n) "=" = false.
Proof.
  intros Hn.
  pose proof (forallb_below_N 64
    (fun n => match unbase64 (char_of n) with
              | Some m => (m =? n)%N
              | None => false
              end && negb (Ascii.eqb (char_of n) "="))
    ltac:(vm_compute; reflexivity) n Hn) as H.
  apply andb_prop in H as [H1 H2].
  destruct (unbase64 (char_of n)) as [m|]; [|discriminate].
  apply N.eqb_eq in H1. subst m.
  split; [reflexivity | now apply negb_true_iff].
Qed.

Lemma sextets_char (n : N) (s : string) :
  (n < 64)%N -> sextets (String (char_of n) s) = n :: sextets s.
Proof.
  intros Hn. destruct (char_of_spec n Hn) as [H1 H2].
  cbn [sextets]. now rewrite H2, H1.
Qed.

Lemma sextets_pad (s : string) : sextets (String "=" s) = [].
Proof. reflexivity. Qed.

Lemma enc0_lt (a : byte) : (enc0 (Byte.to_N a) < 64)%N.
Proof.
  apply N.ltb_lt.
  apply (forallb_below_N 256 (fun a => enc0 a <? 64)%N);
    [vm_compute; reflexivity | apply to_N_lt].
Qed.

Lemma enc3_lt (c : byte) : (enc3 (Byte.to_N c) < 64)%N.
Proof.
  apply N.ltb_lt.
  apply (forallb_below_N 256 (fun c => enc3 c <? 64)%N);
    [vm_compute; reflexivity | apply to_N_lt].
Qed.

(** Two-byte facts are checked on the 65536 pairs. *)
Lemma pairs_below (P : N -> N -> bool) :
  forallb (fun a => forallb (P a) (map N.of_nat (seq 0 256)))
          (map N.of_nat (seq 0 256)) = true ->
  forall a b : byte, P (Byte.to_N a) (Byte.to_N b) = true.
Proof.
  intros Hall a b.
  pose proof (forallb_below_N 256 _ Hall (Byte.to_N a) (to_N_lt a)) as Ha.
  exact (forallb_below_N 256 _ Ha (Byte.to_N b) (to_N_lt b)).
Qed.

Lemma enc1_lt (a b : byte) : (enc1 (Byte.to_N a) (Byte.to_N b) < 64)%N.
Proof.
  apply N.ltb_lt.
  apply (pairs_below (fun a b => enc1 a b <? 64)%N). vm_compute; reflexivity.
Qed.

Lemma enc2_lt (b c : byte) : (enc2 (Byte.to_N b) (Byte.to_N c) < 64)%N.
Proof.
  apply N.ltb_lt.
  apply (pairs_below (fun b c => enc2 b c <? 64)%N). vm_compute; reflexivity.
Qed.

Lemma byte_of_eq (n : N) (x : byte) :
  N.land n 255 = Byte.to_N x -> byte_of n = x.
Proof. intros H. unfold byte_of. now rewrite H, Byte.of_to_N. Qed.

Lemma dec0_enc (a b : byte) :
  dec0 (enc0 (Byte.to_N a)) (enc1 (Byte.to_N a) (Byte.to_N b)) = a.
Proof.
  apply byte_of_eq, N.eqb_eq.
  apply (pairs_below (fun a b =>
    N.land (N.lor (N.shiftl (enc0 a) 2) (N.shiftr (enc1 a b) 4)) 255 =? a)%N).
  vm_compute; reflexivity.
Qed.

(** The middle byte draws on three input bytes, but on the first and the
    last only through two bits each. *)
Lemma dec1_bits (x b y : N) :
  (x < 4)%N -> (b < 256)%N -> (y < 4)%N ->
  N.land (N.lor (N.shiftl (N.lor (N.shiftl x 4) (N.shiftr b 4)) 4)
                (N.shiftr (N.lor (N.shiftl (N.land b 15) 2) y) 2)) 255 = b.
Proof.
  intros Hx Hb Hy. apply N.eqb_eq.
  pose proof (forallb_below_N 4
    (fun x => forallb (fun b => forallb (fun y =>
       N.land (N.lor (N.shiftl (N.lor (N.shiftl x 4) (N.shiftr b 4)) 4)
                     (N.shiftr (N.lor (N.shiftl (N.land b 15) 2) y) 2)) 255 =? b)%N
       (map N.of_nat (seq 0 4))) (map N.of_nat (seq 0 256)))
    ltac:(vm_compute; reflexivity) x Hx) as H1.
  pose proof (forallb_below_N 256 _ H1 b Hb) as H2.
  exact (forallb_below_N 4 _ H2 y Hy).
Qed.

Lemma low2_lt (a : byte) : (N.land (Byte.to_N a) 3 < 4)%N.
Proof.
  apply N.ltb_lt.
  apply (forallb_below_N 256 (fun a => N.land a 3 <? 4)%N);
    [vm_compute; reflexivity | apply to_N_lt].
Qed.

Lemma high2_lt (c : byte) : (N.shiftr (Byte.to_N c) 6 < 4)%N.
Proof.
  apply N.ltb_lt.
  apply (forallb_below_N 256 (fun c => N.shiftr c 6 <? 4)%N);
    [vm_compute; reflexivity | apply to_N_lt].
Qed.

Lemma dec1_enc (a b c : byte) :
  dec1 (enc1 (Byte.to_N a) (Byte.to_N b)) (enc2 (Byte.to_N b) (Byte.to_N c)) = b.
Proof.
  apply byte_of_eq. unfold enc1, enc2.
  apply dec1_bits; [apply low2_lt | apply to_N_lt | apply high2_lt].
Qed.

Lemma dec2_enc (b c : byte) :
  dec2 (enc2 (Byte.to_N b) (Byte.to_N c)) (enc3 (Byte.to_N c)) = c.
Proof.
  apply byte_of_eq, N.eqb_eq.
  apply (pairs_below (fun b c =>
    N.land (N.lor (N.shiftl (enc2 b c) 6) (enc3 c)) 255 =? c)%N).
  vm_compute; reflexivity.
Qed.

Lemma enc1_lt0 (a : byte) : (enc1 (Byte.to_N a) 0 < 64)%N.
Proof. exact (enc1_lt a x00). Qed.

Lemma enc2_lt0 (b : byte) : (enc2 (Byte.to_N b) 0 < 64)%N.
Proof. exact (enc2_lt b x00). Qed.

(** Induction on a buffer three bytes at a time, as [encode] consumes it. *)
Lemma buffer_ind3 (P : list byte -> Prop) :
  P [] ->
  (forall a, P [a]) ->
  (forall a b, P [a; b]) ->
  (forall a b c rest, P rest -> P (a :: b :: c :: rest)) ->
  forall buf, P buf.
Proof.
  intros H0 H1 H2 H3.
  fix IH 1. intros [|a [|b [|c rest]]].
  - exact H0.
  - apply H1.
  - apply H2.
  - apply H3, IH.
Qed.

Lemma decode_encode (buf : list byte) : decode (encode buf) = buf.
Proof.
  unfold decode.
  induction buf as [|a|a b|a b c rest IH] using buffer_ind3.
  - reflexivity.
  - cbn [encode].
    rewrite (sextets_char _ _ (enc0_lt a)), (sextets_char _ _ (enc1_lt0 a)).
    rewrite sextets_pad. cbn [bytes_of].
    f_equal. exact (dec0_enc a x00).
  - cbn [encode].
    rewrite (sextets_char _ _ (enc0_lt a)), (sextets_char _ _ (enc1_lt a b)),
      (sextets_char _ _ (enc2_lt0 b)).
    rewrite sextets_pad. cbn [bytes_of].
    f_equal; [apply dec0_enc|].
    f_equal. exact (dec1_enc a b x00).
  - cbn [encode].
    rewrite (sextets_char _ _ (enc0_lt a)), (sextets_char _ _ (enc1_lt a b)),
      (sextets_char _ _ (enc2_lt b c)), (sextets_char _ _ (enc3_lt c)).
    cbn [bytes_of]. rewrite IH.
    now rewrite dec0_enc, dec1_enc, dec2_enc.
Qed.

(** No character written by [encode] is a colon, so the output never
    starts like a data URL and the route's prefix removal leaves it as it
    is. *)
Lemma char_of_not_colon (n : N) : Ascii.eqb ":" (char_of n) = false.
Proof.
  unfold char_of.
  destruct (String.get (N.to_nat n) alphabet) as [c|] eqn:Hget; [|reflexivity].
  assert (Hall : forallb (fun i =>
            match String.get i alphabet with
            | Some c => negb (Ascii.eqb ":" c)
            | None => true
            end) (seq 0 64) = true) by (vm_compute; reflexivity).
  rewrite forallb_forall in Hall.
  destruct (Nat.lt_ge_cases (N.to_nat n) 64) as [Hlt|Hge].
  - specialize (Hall (N.to_nat n) ltac:(apply in_seq; lia)).
    rewrite Hget in Hall. now apply negb_true_iff.
  - exfalso. revert Hget Hge. generalize (N.to_nat n). intros m Hget Hm.
    do 64 (destruct m as [|m]; [lia|]). discriminate.
Qed.

End Base64Facts.

(** ** Splitting and joining *)

Section SplitJoin.

Variable sep : ascii.

Lemma split_not_nil (s : string) : JS.split sep s <> [].
Proof.
  destruct s as [|c s]; cbn [JS.split]; [discriminate|].
  destruct (Ascii.eqb c sep); [discriminate|].
  destruct (JS.split sep s); discriminate.
Qed.

Lemma join_cons_char (c : ascii) (h : string) (t : list string) :
  JS.join sep (String c h :: t) = String c (JS.join sep (h :: t)).
Proof. destruct t; reflexivity. Qed.

Lemma join_split (s : string) : JS.join sep (JS.split sep s) = s.
Proof.
  induction s as [|c s IH]; [reflexivity|].
  cbn [JS.split].
  destruct (Ascii.eqb c sep) eqn:Hc.
  - apply Ascii.eqb_eq in Hc. subst c.
    pose proof (split_not_nil s) as Hne.
    destruct (JS.split sep s) as [|h t] eqn:Hs; [congruence|].
    rewrite <- IH. reflexivity.
  - pose proof (split_not_nil s) as Hne.
    destruct (JS.split sep s) as [|h t] eqn:Hs; [congruence|].
    rewrite join_cons_char. now rewrite IH.
Qed.

Lemma split_free (p : string) : free_of_sep sep p = true -> JS.split sep p = [p].
Proof.
  induction p as [|c p IH]; [reflexivity|].
  cbn [free_of_sep JS.split]. intros H. apply andb_prop in H as [Hc Hp].
  apply negb_true_iff in Hc. rewrite Hc, (IH Hp). reflexivity.
Qed.

Lemma split_free_sep (p rest : string) :
  free_of_sep sep p = true ->
  JS.split sep (p +:+ String sep rest) = p :: JS.split sep rest.
Proof.
  induction p as [|c p IH]; intros H.
  - change (EmptyString +:+ String sep rest) with (String sep rest).
    cbn [JS.split]. now rewrite Ascii.eqb_refl.
  - cbn [free_of_sep] in H. apply andb_prop in H as [Hc Hp].
    apply negb_true_iff in Hc.
    change (String c p +:+ String sep rest) with (String c (p +:+ String sep rest)).
    cbn [JS.split]. rewrite Hc, (IH Hp). reflexivity.
Qed.

End SplitJoin.

(** ** The dotted-quad test is strict *)

Section Octets.

Lemma part_ok_inv (part : string) :
  part_ok part = true ->
  exists n, 0 <= n <= 255 /\ part = JS.toString n.
Proof.
  unfold part_ok. destruct (JS.parseInt10 part) as [n|]; cbn; [|discriminate].
  intros H. apply andb_prop in H as [H Heq]. apply andb_prop in H as [H0 H255].
  exists n. split; [lia|]. now apply String.eqb_eq.
Qed.

Lemma octet_text (n : Z) :
  0 <= n <= 255 ->
  free_of_sep "." (JS.toString n) = true /\
  part_ok (JS.toString n) = true /\
  JS.Number (JS.toString n) = Some n.
Proof.
  intros Hn.
  pose proof (forallb_below_Z 256 octet_text_ok
                ltac:(vm_compute; reflexivity) n ltac:(lia)) as H.
  unfold octet_text_ok in H.
  apply andb_prop in H as [H HN]. apply andb_prop in H as [Hfree Hpart].
  repeat split; try assumption.
  destruct (JS.Number (JS.toString n)) as [m|]; [|discriminate].
  apply Z.eqb_eq in HN. now subst.
Qed.

Lemma split_dotted (a b c d : Z) :
  octets a b c d ->
  JS.split "." (dotted a b c d)
  = [JS.toString a; JS.toString b; JS.toString c; JS.toString d].
Proof.
  intros (Ha & Hb & Hc & Hd). unfold dotted. cbn [JS.join].
  destruct (octet_text a Ha) as (Fa & _), (octet_text b Hb) as (Fb & _),
           (octet_text c Hc) as (Fc & _), (octet_text d Hd) as (Fd & _).
  rewrite (split_free_sep "." _ _ Fa), (split_free_sep "." _ _ Fb),
          (split_free_sep "." _ _ Fc), (split_free "." _ Fd).
  reflexivity.
Qed.

Lemma isIPv4_parts (s : string) :
  isIPv4 s = forallb part_ok (JS.split "." s)
             && Nat.eqb (length (JS.split "." s)) 4.
Proof.
  unfold isIPv4.
  destruct (Nat.eqb (length (JS.split "." s)) 4); cbn [negb].
  - now rewrite andb_true_r.
  - now rewrite andb_false_r.
Qed.

Lemma isIPv4_dotted (a b c d : Z) :
  octets a b c d -> isIPv4 (dotted a b c d) = true.
Proof.
  intros H. rewrite isIPv4_parts, (split_dotted _ _ _ _ H).
  destruct H as (Ha & Hb & Hc & Hd).
  destruct (octet_text a Ha) as (_ & Pa & _), (octet_text b Hb) as (_ & Pb & _),
           (octet_text c Hc) as (_ & Pc & _), (octet_text d Hd) as (_ & Pd & _).
  cbn [forallb length]. now rewrite Pa, Pb, Pc, Pd.
Qed.

Lemma isIPv4_inv (s : string) :
  isIPv4 s = true ->
  exists a b c d, octets a b c d /\ s = dotted a b c d.
Proof.
  rewrite isIPv4_parts. intros H. apply andb_prop in H as [Hall Hlen].
  apply Nat.eqb_eq in Hlen.
  pose proof (join_split "." s) as Hjoin.
  destruct (JS.split "." s) as [|p1 [|p2 [|p3 [|p4 [|p5 rest]]]]];
    try discriminate Hlen.
  cbn [forallb] in Hall.
  repeat (apply andb_prop in Hall as [?H Hall]).
  repeat match goal with
         | H : part_ok _ = true |- _ =>
             apply part_ok_inv in H as (? & ? & ?)
         end.
  subst. eexists _, _, _, _. split; [|reflexivity].
  repeat split; lia.
Qed.

(** On a dotted quad the chain of tests of [isPrivateIP] is the range
    test on the first two octets. *)
Lemma isPrivateIP_dotted (a b c d : Z) :
  octets a b c d ->
  isPrivateIP (dotted a b c d) = SpecAddr.private_v4 a b.
Proof.
  intros H. unfold isPrivateIP.
  rewrite (isIPv4_dotted _ _ _ _ H), (split_dotted _ _ _ _ H).
  destruct H as (Ha & Hb & Hc & Hd).
  destruct (octet_text a Ha) as (_ & _ & Na), (octet_text b Hb) as (_ & _ & Nb),
           (octet_text c Hc) as (_ & _ & Nc), (octet_text d Hd) as (_ & _ & Nd).
  cbn [map nth]. rewrite Na, Nb. cbn [JS.num_eq JS.num_ge JS.num_le].
  unfold SpecAddr.private_v4.
  destruct (a =? 127), (a =? 10), (a =? 172), (a =? 192), (a =? 169), (a =? 0),
           (16 <=? b), (b <=? 31), (b =? 168), (b =? 254); reflexivity.
Qed.

Lemma isPrivateIP_text (s : string) :
  isIPv4 s = false ->
  isPrivateIP s = textual_private (JS.toLowerCase s).
Proof.
  intros H. unfold isPrivateIP, textual_private. rewrite H.
  destruct (String.eqb _ "::1"), (String.eqb _ "[::1]"),
           (JS.startsWith _ "fc"), (JS.startsWith _ "fd"),
           (JS.startsWith _ "fe80:"), (JS.includes _ "::ffff:"); reflexivity.
Qed.

End Octets.

(** ** C3: the private-address classifier *)

(** C3, refuted as stated. The claim makes [isPrivateIP] return private
    exactly on the listed address ranges. The source tests the text of the
    string. [1::ffff:2] is the address 1:0:0:0:0:0:ffff:2, which is not
    IPv4-mapped and lies in none of the listed ranges, nor does it start
    with [::ffff:]; it contains [::ffff:] and is classified private. So is
    [fc::1], whose first group is 00fc, outside fc00::/7, because it starts
    with the letters [fc]. *)
Lemma isPrivateIP_not_by_range :
  ~ (isPrivateIP "1::ffff:2" = true <-> SpecAddr.is_private "1::ffff:2" = true)
  /\ ~ (isPrivateIP "fc::1" = true <-> SpecAddr.is_private "fc::1" = true).
Proof.
  split; intros [Hcode _]; specialize (Hcode eq_refl);
    vm_compute in Hcode; discriminate.
Qed.

(** A disagreement in the other direction, on the link-local range:
    [fe90::1] lies in fe80::/10, the range the source's comment names, and
    is not classified private, the test being the prefix [fe80:]. *)
Lemma link_local_range_cut_short :
  SpecAddr.is_private "fe90::1" = true /\ isPrivateIP "fe90::1" = false.
Proof. split; reflexivity. Qed.

(** C3, as amended. A string passes as IPv4 exactly when it is the text of
    four octets printed in plain decimal, and such a literal is private
    exactly in 127/8, 10/8, 172.16/12, 192.168/16, 169.254/16 and 0/8. Any
    other string is classified on its lower-cased text: private exactly
    when the text is [::1] or [[::1]], starts with [fc] or [fd], starts
    with [fe80:], or contains [::ffff:]. Texts that start like an address
    of fe80::/10 without starting with [fe80:] are left out of the
    statement. *)
Theorem isPrivateIP_by_text (s : string) :
  link_local_agrees (JS.toLowerCase s) = true ->
  (isIPv4 s = true <-> exists a b c d, octets a b c d /\ s = dotted a b c d)
  /\ (isPrivateIP s = true <->
        (exists a b c d,
            octets a b c d /\ s = dotted a b c d /\ SpecAddr.private_v4 a b = true)
        \/ ((forall a b c d, octets a b c d -> s <> dotted a b c d)
            /\ textual_private (JS.toLowerCase s) = true)).
Proof.
  intros _.
  assert (Hv4 : isIPv4 s = true <-> exists a b c d, octets a b c d /\ s = dotted a b c d).
  { split; [apply isIPv4_inv|].
    intros (a & b & c & d & Ho & ->). now apply isIPv4_dotted. }
  split; [exact Hv4|].
  destruct (isIPv4 s) eqn:Hs.
  - destruct (proj1 Hv4 eq_refl) as (a & b & c & d & Ho & ->).
    rewrite (isPrivateIP_dotted _ _ _ _ Ho). split.
    + intros Hp. left. now exists a, b, c, d.
    + intros [(a' & b' & c' & d' & Ho' & Heq & Hp) | [Hno _]].
      * rewrite <- (isPrivateIP_dotted a b c d Ho), Heq,
          (isPrivateIP_dotted _ _ _ _ Ho'). exact Hp.
      * now destruct (Hno a b c d Ho).
  - rewrite (isPrivateIP_text _ Hs). split.
    + intros Ht. right. split; [|exact Ht].
      intros a b c d Ho ->. rewrite (isIPv4_dotted _ _ _ _ Ho) in Hs. discriminate.
    + intros [(a & b & c & d & Ho & -> & _) | [_ Ht]]; [|exact Ht].
      rewrite (isIPv4_dotted _ _ _ _ Ho) in Hs. discriminate.
Qed.

Lemma isPrivateIP_by_text_witness :
  link_local_agrees (JS.toLowerCase "10.0.0.5") = true
  /\ exists a b c d, octets a b c d /\ "10.0.0.5" = dotted a b c d.
Proof.
  split; [reflexivity|].
  exact (proj1 (proj1 (isPrivateIP_by_text "10.0.0.5" eq_refl)) eq_refl).
Defined.

(** ** C6: the image store *)

Section Store.

Lemma commit_all_cons (uuid : string) (now : Z) (insertImage : InsertImage.t)
      (cs : list Commit) (s : MemStorage.t) :
  commit_all ((uuid, now, insertImage) :: cs) s
  = (fst (MemStorage.storeImage uuid now insertImage s)
       :: fst (commit_all cs (snd (MemStorage.storeImage uuid now insertImage s))),
     snd (commit_all cs (snd (MemStorage.storeImage uuid now insertImage s)))).
Proof.
  cbn [commit_all MemStorage.storeImage fst snd].
  now destruct (commit_all cs _).
Qed.







End Store.



(** ** The routes, case by case *)

Section Routes.

Variable E : Env.

Lemma getImageMetadata_total (buffer : list byte) (st : Server) :
  getImageMetadata E buffer st = (Val (metadata_of E buffer), st).
Proof.
  unfold getImageMetadata, try_catch, bind, sharp, metadata_of.
  destruct (sharp_metadata E buffer); reflexivity.
Qed.

Lemma upload_json_base64 (uuid : string) (now : Z) (data : string)
      (metadata : option Base64Metadata) (st : Server) :
  let image :=
    finish E uuid now "base64" (Base64.decode (strip_data_url data))
           (JS.or_else (metadata ≫= meta_filename) "base64-image")
           (JS.or_else (metadata ≫= meta_format) "unknown") in
  upload_json E uuid now (Base64Body data metadata) st
  = (Some (uploaded image), committed image st).
Proof.
  cbv zeta.
  unfold upload_json, respond, try_catch, upload_json_try, bind at 1.
  cbn [parse ret].
  unfold bind at 1. unfold read_base64, ret at 1.
  unfold bind at 1. rewrite getImageMetadata_total.
  reflexivity.
Qed.

Lemma upload_json_malformed (uuid : string) (now : Z) (st : Server) :
  upload_json E uuid now MalformedBody st
  = (Some (failure 400 "Invalid request format"), st).
Proof. reflexivity. Qed.

(** The URL branch, outcome by outcome. *)
Lemma upload_json_url (uuid : string) (now : Z) (url : string) (st : Server) :
  upload_json E uuid now (UrlBody url) st
  = let validation := validateImageUrl E url in
    if negb (valid validation) then
      (Some (failure 400 (JS.or_else (error validation) "Invalid URL")), st)
    else
      match http_fetch E url with
      | None => (Some (failure 500 "Internal server error"), requested url st)
      | Some response =>
          if negb (resp_ok response) then
            (Some (failure 400 "Failed to fetch image from URL"), requested url st)
          else
            match resp_content_type response with
            | Some (String c ct) =>
                if negb (JS.startsWith (String c ct) "image/") then
                  (Some (failure 400
                     "URL does not point to an image (invalid content-type)"),
                   requested url st)
                else if JS.truthy (resp_content_length response) &&
                        JS.num_gt (resp_content_length response ≫= JS.parseInt)
                                  MAX_BYTES then
                  (Some (failure 400 "Image too large (max 10MB)"), requested url st)
                else
                  match resp_body response with
                  | None =>
                      (Some (failure 500 "Internal server error"), requested url st)
                  | Some bytes =>
                      if MAX_BYTES <? buffer_length bytes then
                        (Some (failure 400 "Image too large (max 10MB)"),
                         requested url st)
                      else
                        let image :=
                          finish E uuid now "url" bytes
                            (JS.or_else (JS.pop (JS.split "/" url)) "url-image")
                            (JS.or_else (nth_error (JS.split "/" (String c ct)) 1)
                                        "unknown") in
                        (Some (uploaded image), committed image (requested url st))
                  end
            | _ =>
                (Some (failure 400
                   "URL does not point to an image (invalid content-type)"),
                 requested url st)
            end
      end.
Proof.
  cbv zeta.
  unfold upload_json, respond, try_catch, upload_json_try, bind at 1.
  cbn [parse ret].
  unfold bind at 1. unfold read_url.
  destruct (valid (validateImageUrl E url)); cbn [negb]; [|reflexivity].
  unfold bind at 1, fetch. fold (requested url st).
  destruct (http_fetch E url) as [response|]; [|reflexivity].
  destruct (resp_ok response); cbn [negb]; [|reflexivity].
  destruct (resp_content_type response) as [[|c ct]|]; try reflexivity.
  destruct (JS.startsWith (String c ct) "image/"); cbn [negb]; [|reflexivity].
  destruct (JS.truthy (resp_content_length response) && _); [reflexivity|].
  unfold bind at 1, arrayBuffer.
  destruct (resp_body response) as [bytes|]; [|reflexivity].
  unfold ret at 1.
  destruct (MAX_BYTES <? buffer_length bytes); [reflexivity|].
  unfold ret at 1. unfold bind at 1. rewrite getImageMetadata_total.
  reflexivity.
Qed.

(** The multipart route, outcome by outcome. *)
Lemma upload_multipart_file (uuid : string) (now : Z) (file : FilePart)
      (st : Server) :
  upload_multipart E uuid now (Some file) st
  = if negb (string_in (mimetype file) allowedMimes) then
      (inl "Invalid file type. Only JPEG, PNG, GIF, and WebP are allowed.", st)
    else if MAX_BYTES <? buffer_length (content file) then
      (inl "File too large", st)
    else
      (inr (Some (uploaded (finish_upload E uuid now file))),
       committed (finish_upload E uuid now file) st).
Proof.
  unfold upload_multipart, upload_single.
  destruct (negb (string_in (mimetype file) allowedMimes)); [reflexivity|].
  destruct (MAX_BYTES <? buffer_length (content file)); [reflexivity|].
  unfold respond, try_catch, upload_multipart_try, bind at 1.
  rewrite getImageMetadata_total. reflexivity.
Qed.

End Routes.

(** ** The hub *)

Section Hub.

Variable E : Env.

Lemma committed_clients (image : Image.t) (st : Server) :
  clients (committed image st) = clients st.
Proof. reflexivity. Qed.

Lemma committed_getImage (image : Image.t) (st : Server) :
  MemStorage.getImage (Image.id image) (storage (committed image st)) = Some image.
Proof. apply lookup_insert_eq. Qed.

Lemma committed_current (image : Image.t) (st : Server) :
  Image.id image <> EmptyString ->
  MemStorage.getCurrentImage (storage (committed image st)) = Some image.
Proof.
  intros Hid. unfold MemStorage.getCurrentImage.
  cbn [committed broadcastImageUpdate storage MemStorage.currentImageId
       MemStorage.images].
  destruct (Image.id image) as [|c i] eqn:Heq; [congruence|].
  rewrite <- Heq. apply lookup_insert_eq.
Qed.

Lemma broadcast_sent (image : Image.t) (st : Server) (w : nat) :
  sent (broadcastImageUpdate image st) w
  = if bool_decide (w ∈ clients st) && socket_open st w
    then sent st w ++ [image_update image] else sent st w.
Proof.
  unfold sent, socket_open, broadcastImageUpdate. cbn [sockets].
  rewrite map_lookup_imap.
  destruct (sockets st !! w) as [s|]; cbn; [|now rewrite andb_false_r].
  now destruct (bool_decide (w ∈ clients st) && is_open s).
Qed.

Lemma committed_sent (image : Image.t) (st : Server) (w : nat) :
  sent (committed image st) w
  = if bool_decide (w ∈ clients st) && socket_open st w
    then sent st w ++ [image_update image] else sent st w.
Proof. unfold committed. now rewrite broadcast_sent. Qed.

Lemma connection_joined (w : nat) (st : Server) :
  w ∈ clients (step E (Connection w) st).
Proof.
  cbn [step]. unfold on_connection.
  destruct (MemStorage.getCurrentImage _); [destruct (socket_open _ _)|];
    cbn; set_solver.
Qed.


Lemma connection_sent (w : nat) (st : Server) :
  sent (step E (Connection w) st) w
  = match MemStorage.getCurrentImage (storage st) with
    | Some currentImage => [image_update currentImage]
    | None => []
    end.
Proof.
  cbn [step]. unfold on_connection, socket_open, sent.
  cbn [ws_accept sockets storage].
  rewrite lookup_insert_eq. cbn [is_open readyState].
  destruct (MemStorage.getCurrentImage _); cbn [sockets send_to].
  - now rewrite lookup_alter_eq, lookup_insert_eq.
  - now rewrite lookup_insert_eq.
Qed.

Lemma connection_storage (w : nat) (st : Server) :
  storage (step E (Connection w) st) = storage st.
Proof.
  cbn [step]. unfold on_connection.
  destruct (MemStorage.getCurrentImage _); [destruct (socket_open _ _)|];
    reflexivity.
Qed.

End Hub.

Section Registry.

Variable E : Env.

Lemma upload_json_clients (uuid : string) (now : Z) (body : Body) (st : Server) :
  clients (snd (upload_json E uuid now body st)) = clients st.
Proof.
  destruct body as [data metadata|url|].
  - now rewrite upload_json_base64.
  - rewrite upload_json_url. cbv zeta. repeat case_match; reflexivity.
  - reflexivity.
Qed.

Lemma upload_multipart_clients (uuid : string) (now : Z) (part : option FilePart)
      (st : Server) :
  clients (snd (upload_multipart E uuid now part st)) = clients st.
Proof.
  destruct part as [file|]; [|reflexivity].
  rewrite upload_multipart_file. repeat case_match; reflexivity.
Qed.

(** One event that is not the close or the error of [w] keeps [w] in the
    registry. *)
Lemma step_keeps (w : nat) (ev : Event) (st : Server) :
  drops w ev = false -> w ∈ clients st -> w ∈ clients (step E ev st).
Proof.
  intros Hev Hin. destruct ev as [w'|w'|w'| | | |]; cbn [step drops] in *.
  - unfold on_connection.
    destruct (MemStorage.getCurrentImage _); [destruct (socket_open _ _)|];
      cbn; set_solver.
  - apply Nat.eqb_neq in Hev. cbn. set_solver.
  - apply Nat.eqb_neq in Hev. cbn. set_solver.
  - exact Hin.
  - exact Hin.
  - now rewrite upload_json_clients.
  - now rewrite upload_multipart_clients.
Qed.

Lemma run_keeps (w : nat) (evs : list Event) (st : Server) :
  forallb (fun ev => negb (drops w ev)) evs = true ->
  w ∈ clients st -> w ∈ clients (run E evs st).
Proof.
  revert st. induction evs as [|ev evs IH]; intros st Hall Hin; [exact Hin|].
  cbn [forallb] in Hall. apply andb_prop in Hall as [Hev Hall].
  apply negb_true_iff in Hev.
  cbn [run fold_left]. apply IH; [exact Hall|]. now apply step_keeps.
Qed.

Lemma step_drops (w : nat) (st : Server) :
  (w ∉ clients (step E (Closed w) st)) /\ (w ∉ clients (step E (Errored w) st)).
Proof.
  split; cbn; intros Hin; apply elem_of_difference in Hin as [_ Hne];
    apply Hne, elem_of_singleton; reflexivity.
Qed.

Lemma waiting_step (w : nat) (ev : Event) (st : Server) :
  quiet_for w ev = true -> waiting w st -> waiting w (step E ev st).
Proof.
  intros Hev (Hin & Hsock & Hcur).
  destruct ev as [w'|w'|w'| | | |]; cbn [step quiet_for] in *;
    try discriminate; try (now repeat split);
    apply negb_true_iff, Nat.eqb_neq in Hev.
  - unfold on_connection. cbn [ws_accept storage]. rewrite Hcur.
    repeat split; cbn; [set_solver| |exact Hcur].
    now rewrite lookup_insert_ne.
  - repeat split; cbn; [set_solver| |exact Hcur].
    now rewrite lookup_alter_ne.
  - repeat split; cbn; [set_solver|exact Hsock|exact Hcur].
Qed.

Lemma waiting_run (w : nat) (evs : list Event) (st : Server) :
  forallb (quiet_for w) evs = true -> waiting w st -> waiting w (run E evs st).
Proof.
  revert st. induction evs as [|ev evs IH]; intros st Hall Hw; [exact Hw|].
  cbn [forallb] in Hall. apply andb_prop in Hall as [Hev Hall].
  cbn [run fold_left]. apply IH; [exact Hall|]. now apply waiting_step.
Qed.

Lemma waiting_joined (w : nat) (st : Server) :
  MemStorage.getCurrentImage (storage st) = None ->
  waiting w (step E (Connection w) st).
Proof.
  intros Hcur. repeat split.
  - apply connection_joined.
  - cbn [step]. unfold on_connection. cbn [ws_accept storage]. rewrite Hcur.
    cbn. now rewrite lookup_insert_eq.
  - now rewrite connection_storage.
Qed.

Lemma waiting_sent (w : nat) (st : Server) :
  waiting w st ->
  sent st w = [] /\ socket_open st w = true /\ bool_decide (w ∈ clients st) = true.
Proof.
  intros (Hin & Hsock & _). unfold sent, socket_open. rewrite Hsock.
  repeat split. now apply bool_decide_eq_true.
Qed.

End Registry.

(** ** C7: join-time catch-up *)

(** C7. When a client completes the handshake, the hub registers it and,
    if the store has a current image, sends it that image in an
    [image_update] as the first and only frame so far, no commit being
    needed. If the store has no current image the client is sent nothing,
    and still nothing through any events that are neither a commit nor the
    end of this connection; the next upload then reaches it as its first
    frame. *)
Theorem join_time_catch_up (E : Env) (st : Server) (w : nat) :
  let joined := step E (Connection w) st in
  w ∈ clients joined
  /\ (forall image,
        MemStorage.getCurrentImage (storage st) = Some image ->
        sent joined w = [image_update image])
  /\ (MemStorage.getCurrentImage (storage st) = None ->
      forall quiet,
        forallb (quiet_for w) quiet = true ->
        sent (run E quiet joined) w = []
        /\ forall uuid now data metadata,
            exists image,
              upload_json E uuid now (Base64Body data metadata) (run E quiet joined)
              = (Some (uploaded image), committed image (run E quiet joined))
              /\ sent (step E (PostJson uuid now (Base64Body data metadata))
                            (run E quiet joined)) w
                 = [image_update image]).
Proof.
  intros joined. split; [apply connection_joined|]. split.
  - intros image Hcur. unfold joined. now rewrite connection_sent, Hcur.
  - intros Hcur quiet Hquiet.
    pose proof (waiting_run E w quiet joined Hquiet (waiting_joined E w st Hcur)) as Hw.
    destruct (waiting_sent w _ Hw) as (Hsent & Hopen & Hreg).
    split; [exact Hsent|].
    intros uuid now data metadata. eexists. split; [apply upload_json_base64|].
    cbn [step]. rewrite upload_json_base64. cbn [snd].
    now rewrite committed_sent, Hreg, Hopen, Hsent.
Qed.

Lemma join_time_catch_up_witness :
  let st := snd (upload_json sample_env "id-1" 0 (Base64Body "AAAA" None) init_server) in
  exists image,
    MemStorage.getCurrentImage (storage st) = Some image
    /\ sent (step sample_env (Connection 7) st) 7 = [image_update image].
Proof.
  eexists. split; [vm_compute; reflexivity|].
  apply (join_time_catch_up sample_env _ 7). vm_compute; reflexivity.
Defined.


(** ** C8: heartbeat and liveness *)

(** C8, refuted as stated. A client joins, sends a ping and then goes
    silent for an hour, no close and no error being reported. The hub has
    sent it no pong, has kept it in the registry, and the next fan-out
    still writes to it. *)
Lemma silent_subscriber_stays :
  let st := run sample_env
              [Connection 1; Received 1 (ping 0); Elapsed 3600000] init_server in
  sent st 1 = []
  /\ bool_decide (1%nat ∈ clients st) = true
  /\ exists image,
       sent (step sample_env (PostJson "id-1" 3600001 (Base64Body "AAAA" None)) st) 1
       = [image_update image].
Proof.
  split; [vm_compute; reflexivity|].
  split; [vm_compute; reflexivity|].
  eexists. vm_compute. reflexivity.
Qed.

(** C8, as amended. The registry loses a connection on that connection's
    own ['close'] or ['error'] event and on nothing else: through any other
    events, received frames and the passing of time included, a registered
    connection stays registered, and while its socket reports [OPEN] every
    fan-out writes the update to it. *)
Theorem registry_drops_on_close_or_error_only
        (E : Env) (evs : list Event) (st : Server) (w : nat) :
  w ∈ clients st ->
  forallb (fun ev => negb (drops w ev)) evs = true ->
  w ∈ clients (run E evs st)
  /\ (w ∉ clients (step E (Closed w) (run E evs st)))
  /\ (w ∉ clients (step E (Errored w) (run E evs st)))
  /\ (forall image,
        socket_open (run E evs st) w = true ->
        sent (broadcastImageUpdate image (run E evs st)) w
        = sent (run E evs st) w ++ [image_update image]).
Proof.
  intros Hin Hevs.
  pose proof (run_keeps E w evs st Hevs Hin) as Hkept.
  split; [exact Hkept|].
  split; [apply step_drops|]. split; [apply step_drops|].
  intros image Hopen. rewrite broadcast_sent, Hopen.
  now rewrite (bool_decide_eq_true_2 _ Hkept).
Qed.

Lemma registry_drops_on_close_or_error_only_witness :
  let st := step sample_env (Connection 1) init_server in
  let evs := [Received 1 (ping 0); Elapsed 3600000; Connection 2; Closed 2] in
  1%nat ∈ clients st
  /\ forallb (fun ev => negb (drops 1 ev)) evs = true
  /\ 1%nat ∈ clients (run sample_env evs st).
Proof.
  assert (Hin : 1%nat ∈ clients (step sample_env (Connection 1) init_server))
    by apply connection_joined.
  split; [exact Hin|]. split; [reflexivity|].
  exact (proj1 (registry_drops_on_close_or_error_only sample_env
                  [Received 1 (ping 0); Elapsed 3600000; Connection 2; Closed 2]
                  _ 1%nat Hin eq_refl)).
Defined.

(** ** C2: URL validation *)

Section Validation.

Variable E : Env.

Lemma validateImageUrl_reason (url : string) :
  valid (validateImageUrl E url) = false ->
  exists reason,
    reason <> EmptyString /\ validateImageUrl E url = rejected reason.
Proof.
  unfold validateImageUrl.
  repeat case_match; intros Hv; try discriminate Hv;
    eexists; (split; [|reflexivity]); discriminate.
Qed.

(** A host name that does not resolve, or resolves to no address, is
    refused. *)
Lemma unresolved_host_refused (url protocol host : string) :
  url_parse E url = Some (protocol, host) ->
  dns_lookup E (JS.toLowerCase host) = None
  \/ dns_lookup E (JS.toLowerCase host) = Some [] ->
  valid (validateImageUrl E url) = false.
Proof.
  intros Hparse Hdns. unfold validateImageUrl. rewrite Hparse.
  destruct (negb _); [reflexivity|].
  destruct (_ || _); [reflexivity|].
  destruct (isPrivateIP _); [reflexivity|].
  now destruct Hdns as [-> | ->].
Qed.

(** So is one whose answer holds an address that [isPrivateIP] flags,
    wherever in the answer it stands. *)
Lemma flagged_address_refused (url protocol host : string)
      (addresses : list string) (address : string) :
  url_parse E url = Some (protocol, host) ->
  dns_lookup E (JS.toLowerCase host) = Some addresses ->
  In address addresses ->
  isPrivateIP address = true ->
  valid (validateImageUrl E url) = false.
Proof.
  intros Hparse Hdns Hin Hflag. unfold validateImageUrl. rewrite Hparse, Hdns.
  destruct (negb _); [reflexivity|].
  destruct (_ || _); [reflexivity|].
  destruct (isPrivateIP (JS.toLowerCase host)); [reflexivity|].
  destruct (Nat.eqb (length addresses) 0); [reflexivity|].
  assert (Hex : existsb isPrivateIP addresses = true)
    by (apply existsb_exists; eauto).
  now rewrite Hex.
Qed.

(** A refusal names its reason, and the route answers it with status 400
    and that reason, the state as it was. *)
Lemma refused_url_answered_400 (uuid : string) (now : Z) (url : string)
      (st : Server) :
  valid (validateImageUrl E url) = false ->
  exists reason,
    reason <> EmptyString
    /\ error (validateImageUrl E url) = Some reason
    /\ upload_json E uuid now (UrlBody url) st = (Some (failure 400 reason), st).
Proof.
  intros Hv. destruct (validateImageUrl_reason url Hv) as (reason & Hne & Heq).
  exists reason. split; [exact Hne|]. split; [now rewrite Heq|].
  rewrite upload_json_url. cbv zeta. rewrite Hv. cbn [negb].
  rewrite Heq. cbn [error rejected].
  destruct reason; [congruence | reflexivity].
Qed.

(** What an accepted URL has gone through. *)
Lemma validateImageUrl_valid (url : string) :
  valid (validateImageUrl E url) = true ->
  exists protocol host addresses,
    url_parse E url = Some (protocol, host)
    /\ string_in protocol ["http:"; "https:"] = true
    /\ dns_lookup E (JS.toLowerCase host) = Some addresses
    /\ addresses <> []
    /\ forallb (fun a => negb (isPrivateIP a)) addresses = true.
Proof.
  unfold validateImageUrl.
  destruct (url_parse E url) as [[protocol host]|]; [|discriminate].
  destruct (string_in protocol _) eqn:Hp; cbn [negb]; [|discriminate].
  destruct (_ || _); [discriminate|].
  destruct (isPrivateIP _); [discriminate|].
  destruct (dns_lookup E (JS.toLowerCase host)) as [[|a addresses]|] eqn:Hdns;
    try discriminate.
  cbn [length Nat.eqb].
  destruct (existsb isPrivateIP (a :: addresses)) eqn:Hex; [discriminate|].
  intros _. exists protocol, host, (a :: addresses).
  repeat split; try assumption; try discriminate.
  apply forallb_forall. intros x Hx.
  apply negb_true_iff. destruct (isPrivateIP x) eqn:Hpx; [|reflexivity].
  assert (existsb isPrivateIP (a :: addresses) = true)
    by (apply existsb_exists; eauto).
  congruence.
Qed.

End Validation.

(** C2, where the source departs from it. The host name resolves to a
    public address and to [fe90::1], which lies in the link-local range
    fe80::/10. The validator accepts the URL, the route fetches it, stores
    the body and answers 200. *)
Lemma link_local_answer_is_fetched :
  let url := "http://mixed.example/scan.tiff" in
  let result := upload_json mixed_env "id-1" 0 (UrlBody url) init_server in
  dns_lookup mixed_env "mixed.example" = Some ["93.184.216.34"; "fe90::1"]
  /\ SpecAddr.is_private "fe90::1" = true
  /\ valid (validateImageUrl mixed_env url) = true
  /\ fetched (snd result) = [url]
  /\ (status <$> fst result) = Some 200
  /\ (Image.type <$> MemStorage.getCurrentImage (storage (snd result)))
     = Some "url".
Proof. repeat split; vm_compute; reflexivity. Qed.

(** ** C4: accepted media types *)

(** C4, refuted as stated. The host serves [image/tiff], which is not in
    the whitelist; the URL route takes it, stores it and answers 200. *)
Lemma url_route_takes_tiff :
  let url := "http://cdn.example/scan.tiff" in
  let result := upload_json sample_env "id-1" 0 (UrlBody url) init_server in
  (http_fetch sample_env url ≫= resp_content_type) = Some "image/tiff"
  /\ string_in "image/tiff" allowedMimes = false
  /\ (status <$> fst result) = Some 200
  /\ (Image.type <$> MemStorage.getCurrentImage (storage (snd result)))
     = Some "url".
Proof. repeat split; vm_compute; reflexivity. Qed.

(** C4, as amended. The multipart route refuses, before its handler runs,
    every file whose declared content type is not one of [image/jpeg],
    [image/png], [image/gif], [image/webp]. The URL route refuses, after
    the fetch and before anything is stored, every response that has no
    content type or one that does not start with [image/]. *)
Theorem media_type_gates
        (E : Env) (uuid : string) (now : Z) (st : Server) :
  (forall file,
      string_in (mimetype file) allowedMimes = false ->
      upload_multipart E uuid now (Some file) st
      = (inl "Invalid file type. Only JPEG, PNG, GIF, and WebP are allowed.", st))
  /\ (forall url response,
        valid (validateImageUrl E url) = true ->
        http_fetch E url = Some response ->
        resp_ok response = true ->
        match resp_content_type response with
        | Some contentType => JS.startsWith contentType "image/" = false
        | None => True
        end ->
        upload_json E uuid now (UrlBody url) st
        = (Some (failure 400 "URL does not point to an image (invalid content-type)"),
           requested url st)).
Proof.
  split.
  - intros file Hmime. rewrite upload_multipart_file. now rewrite Hmime.
  - intros url response Hv Hfetch Hok Hct.
    rewrite upload_json_url. cbv zeta. rewrite Hv, Hfetch, Hok. cbn [negb].
    destruct (resp_content_type response) as [[|c ct]|]; try reflexivity.
    now rewrite Hct.
Qed.

Lemma media_type_gates_witness :
  let file := {| originalname := "notes.txt"; mimetype := "text/plain";
                 content := [x68; x69] |} in
  string_in (mimetype file) allowedMimes = false
  /\ upload_multipart sample_env "id-1" 0 (Some file) init_server
     = (inl "Invalid file type. Only JPEG, PNG, GIF, and WebP are allowed.",
        init_server).
Proof.
  split; [reflexivity|].
  exact (proj1 (media_type_gates sample_env "id-1" 0 init_server)
           {| originalname := "notes.txt"; mimetype := "text/plain";
              content := [x68; x69] |} eq_refl).
Defined.

(** ** C9: the extractor never fails *)

(** C9. [getImageMetadata] returns a record for every buffer and in every
    state, with [size] the length of the buffer. When the decoder fails the
    record has format ["unknown"] and no width or height, and each of the
    three routes that is given such a buffer, and that its own checks let
    through, answers 200 and stores the image, without dimensions and with
    that size. *)
Theorem extraction_never_fails (E : Env) (buffer : list byte) (st : Server) :
  (exists metadata,
      getImageMetadata E buffer st = (Val metadata, st)
      /\ md_size metadata = buffer_length buffer)
  /\ (sharp_metadata E buffer = None ->
      let degraded (image : Image.t) :=
        Image.width image = None
        /\ Image.height image = None
        /\ Image.size image = Some (buffer_length buffer) in
      getImageMetadata E buffer st
      = (Val {| md_width := None; md_height := None;
                md_format := Some "unknown";
                md_size := buffer_length buffer |}, st)
      /\ (forall uuid now data metadata,
            Base64.decode (strip_data_url data) = buffer ->
            exists image,
              upload_json E uuid now (Base64Body data metadata) st
              = (Some (uploaded image), committed image st)
              /\ status (uploaded image) = 200
              /\ MemStorage.getImage uuid (storage (committed image st)) = Some image
              /\ degraded image)
      /\ (forall uuid now url response contentType,
            valid (validateImageUrl E url) = true ->
            http_fetch E url = Some response ->
            resp_ok response = true ->
            resp_content_type response = Some contentType ->
            JS.startsWith contentType "image/" = true ->
            JS.truthy (resp_content_length response)
              && JS.num_gt (resp_content_length response ≫= JS.parseInt) MAX_BYTES
              = false ->
            resp_body response = Some buffer ->
            buffer_length buffer <= MAX_BYTES ->
            exists image,
              upload_json E uuid now (UrlBody url) st
              = (Some (uploaded image), committed image (requested url st))
              /\ status (uploaded image) = 200
              /\ MemStorage.getImage uuid (storage (committed image (requested url st)))
                 = Some image
              /\ degraded image)
      /\ (forall uuid now file,
            content file = buffer ->
            string_in (mimetype file) allowedMimes = true ->
            buffer_length buffer <= MAX_BYTES ->
            exists image,
              upload_multipart E uuid now (Some file) st
              = (inr (Some (uploaded image)), committed image st)
              /\ status (uploaded image) = 200
              /\ MemStorage.getImage uuid (storage (committed image st)) = Some image
              /\ degraded image)).
Proof.
  split.
  - exists (metadata_of E buffer). split; [apply getImageMetadata_total|].
    unfold metadata_of. now destruct (sharp_metadata E buffer).
  - intros Hfail degraded.
    assert (Hmd : metadata_of E buffer
                  = {| md_width := None; md_height := None;
                       md_format := Some "unknown";
                       md_size := buffer_length buffer |})
      by (unfold metadata_of; now rewrite Hfail).
    split; [now rewrite getImageMetadata_total, Hmd|].
    split; [|split].
    + intros uuid now data metadata Hdec.
      eexists. split; [apply upload_json_base64|].
      split; [reflexivity|]. split; [apply committed_getImage|].
      unfold degraded, finish. rewrite Hdec, Hmd. now repeat split.
    + intros uuid now url response contentType Hv Hfetch Hok Hct Himg Hcl Hbody Hlen.
      rewrite upload_json_url. cbv zeta.
      rewrite Hv, Hfetch, Hok, Hct. cbn [negb].
      destruct contentType as [|c ct]; [discriminate Himg|].
      rewrite Himg, Hcl, Hbody. cbn [negb].
      destruct (MAX_BYTES <? buffer_length buffer) eqn:Hgt;
        [apply Z.ltb_lt in Hgt; lia|].
      eexists. split; [reflexivity|].
      split; [reflexivity|]. split; [apply committed_getImage|].
      unfold degraded, finish. rewrite Hmd. now repeat split.
    + intros uuid now file Hcontent Hmime Hlen.
      rewrite upload_multipart_file, Hmime, Hcontent. cbn [negb].
      destruct (MAX_BYTES <? buffer_length buffer) eqn:Hgt;
        [apply Z.ltb_lt in Hgt; lia|].
      eexists. split; [reflexivity|].
      split; [reflexivity|]. split; [apply committed_getImage|].
      unfold degraded, finish_upload. rewrite Hcontent, Hmd. now repeat split.
Qed.

Lemma extraction_never_fails_witness :
  sharp_metadata sample_env [x00; x00; x00] = None
  /\ exists image,
       upload_json sample_env "id-1" 0 (Base64Body "AAAA" png_hint) init_server
       = (Some (uploaded image), committed image init_server)
       /\ Image.size image = Some 3.
Proof.
  split; [reflexivity|].
  destruct (proj2 (extraction_never_fails sample_env [x00; x00; x00] init_server)
              eq_refl) as (_ & Hinline & _).
  destruct (Hinline "id-1" 0 "AAAA" png_hint eq_refl)
    as (image & Hroute & _ & _ & _ & _ & Hsize).
  exists image. split; [exact Hroute | exact Hsize].
Defined.

(** ** C10: the stored payload *)

Section Payload.

Lemma slice_app (p s : string) : slice (String.length p) (p +:+ s) = s.
Proof. induction p as [|c p IH]; [now destruct s | exact IH]. Qed.

Lemma append_assoc (a b c : string) : (a +:+ b) +:+ c = a +:+ (b +:+ c).
Proof.
  induction a as [|x a IH]; [reflexivity|].
  change (String x ((a +:+ b) +:+ c) = String x (a +:+ (b +:+ c))).
  now rewrite IH.
Qed.

Lemma data_url_split (format : option string) (buffer : list byte) :
  data_url format buffer = data_url_header format +:+ Base64.encode buffer.
Proof.
  unfold data_url, data_url_header. now rewrite !append_assoc.
Qed.

Lemma data_url_decodes (format : option string) (buffer : list byte) :
  Base64.decode (slice (String.length (data_url_header format))
                       (data_url format buffer)) = buffer.
Proof.
  rewrite data_url_split, slice_app. apply Base64Facts.decode_encode.
Qed.

End Payload.

(** C10. Whenever a route answers 200, the image it stored under the fresh
    identifier has as payload the text [data:image/], the format the
    extractor returned (as the template prints it), [;base64,] and the
    Base64 text of the bytes brought in by the request; decoding what
    follows that header gives those bytes back. The bytes are the decoded
    inline data, the body of the fetched response, or the content of the
    uploaded file. *)
Theorem stored_payload_decodes
        (E : Env) (uuid : string) (now : Z) (st : Server) :
  (forall body r st',
      upload_json E uuid now body st = (Some r, st') ->
      status r = 200 ->
      exists buffer metadata image,
        received E body = Some buffer
        /\ getImageMetadata E buffer st = (Val metadata, st)
        /\ MemStorage.getImage uuid (storage st') = Some image
        /\ Image.data image
           = "data:image/" +:+ JS.template (md_format metadata) +:+ ";base64,"
               +:+ Base64.encode buffer
        /\ Base64.decode (slice (String.length (data_url_header (md_format metadata)))
                                (Image.data image)) = buffer)
  /\ (forall file r st',
        upload_multipart E uuid now (Some file) st = (inr (Some r), st') ->
        status r = 200 ->
        exists metadata image,
          getImageMetadata E (content file) st = (Val metadata, st)
          /\ MemStorage.getImage uuid (storage st') = Some image
          /\ Image.data image
             = "data:image/" +:+ JS.template (md_format metadata) +:+ ";base64,"
                 +:+ Base64.encode (content file)
          /\ Base64.decode (slice (String.length (data_url_header (md_format metadata)))
                                  (Image.data image)) = content file).
Proof.
  split.
  - intros body r st' Hroute Hok.
    destruct body as [data metadata|url|].
    + rewrite upload_json_base64 in Hroute. injection Hroute as <- <-.
      eexists _, (metadata_of E _), _.
      split; [reflexivity|]. split; [apply getImageMetadata_total|].
      split; [apply committed_getImage|].
      split; [reflexivity | apply data_url_decodes].
    + rewrite upload_json_url in Hroute. cbv zeta in Hroute.
      unfold received.
      repeat case_match;
        injection Hroute as <- <-; try discriminate Hok.
      cbn [mbind option_bind].
      eexists _, (metadata_of E _), _.
      split; [eassumption|]. split; [apply getImageMetadata_total|].
      split; [apply committed_getImage|].
      split; [reflexivity | apply data_url_decodes].
    + rewrite upload_json_malformed in Hroute. injection Hroute as <- <-.
      discriminate Hok.
  - intros file r st' Hroute Hok.
    rewrite upload_multipart_file in Hroute.
    repeat case_match; try discriminate Hroute.
    injection Hroute as <- <-.
    eexists (metadata_of E _), _.
    split; [apply getImageMetadata_total|].
    split; [apply committed_getImage|].
    split; [reflexivity | apply data_url_decodes].
Qed.

Lemma stored_payload_decodes_witness :
  let result := upload_json sample_env "id-1" 0 (Base64Body "SUkqAA==" None) init_server in
  (status <$> fst result) = Some 200
  /\ exists image,
       MemStorage.getImage "id-1" (storage (snd result)) = Some image
       /\ Image.data image = "data:image/tiff;base64,SUkqAA=="
       /\ Base64.decode (slice 23 (Image.data image)) = tiff_header.
Proof.
  split; [reflexivity|].
  destruct (proj1 (stored_payload_decodes sample_env "id-1" 0 init_server)
              (Base64Body "SUkqAA==" None) _ _ eq_refl eq_refl)
    as (buffer & metadata & image & Hrecv & Hmd & Hget & Hdata & Hdec).
  injection Hrecv as <-.
  change (Base64.decode (strip_data_url "SUkqAA==")) with tiff_header in *.
  rewrite getImageMetadata_total in Hmd. injection Hmd as <-.
  exists image. split; [exact Hget|]. split; [exact Hdata | exact Hdec].
Defined.

(** ** C1: the size ceiling *)

Section Ceiling.

Variable E : Env.

Lemma encode_head (buffer : list byte) :
  Base64.encode buffer = EmptyString
  \/ exists n s, Base64.encode buffer = String (Base64.char_of n) s.
Proof.
  destruct buffer as [|a [|b [|c rest]]]; [now left|right..];
    cbn [Base64.encode]; eauto.
Qed.

(** The Base64 text of a buffer is not a data URL: the prefix removal of
    the inline branch leaves it as it is. *)
Lemma strip_data_url_encode (buffer : list byte) :
  strip_data_url (Base64.encode buffer) = Base64.encode buffer.
Proof.
  unfold strip_data_url.
  assert (H : strip_prefix "data:image/" (Base64.encode buffer) = None);
    [|now rewrite H].
  destruct buffer as [|a [|b [|c rest]]]; cbn [Base64.encode strip_prefix];
    try reflexivity;
    repeat (match goal with
            | |- (if ?t then _ else _) = _ => destruct t; [|reflexivity]
            end);
    try reflexivity.
  destruct (encode_head rest) as [-> | (n & s & ->)]; [reflexivity|].
  cbn [strip_prefix]. now rewrite Base64Facts.char_of_not_colon.
Qed.

(** The URL branch checks the bytes received against the ceiling. *)
Lemma url_over_ceiling (uuid : string) (now : Z) (url : string)
      (response : FetchResponse) (contentType : string) (bytes : list byte)
      (st : Server) :
  valid (validateImageUrl E url) = true ->
  http_fetch E url = Some response ->
  resp_ok response = true ->
  resp_content_type response = Some contentType ->
  JS.startsWith contentType "image/" = true ->
  resp_body response = Some bytes ->
  MAX_BYTES < buffer_length bytes ->
  upload_json E uuid now (UrlBody url) st
  = (Some (failure 400 "Image too large (max 10MB)"), requested url st).
Proof.
  intros Hv Hfetch Hok Hct Himg Hbody Hlen.
  rewrite upload_json_url. cbv zeta.
  rewrite Hv, Hfetch, Hok, Hct. cbn [negb].
  destruct contentType as [|c ct]; [discriminate Himg|].
  rewrite Himg, Hbody. cbn [negb].
  destruct (JS.truthy _ && _); [reflexivity|].
  now rewrite (proj2 (Z.ltb_lt _ _) Hlen).
Qed.

(** So does the multipart route, in its middleware. *)
Lemma upload_over_ceiling (uuid : string) (now : Z) (file : FilePart)
      (st : Server) :
  string_in (mimetype file) allowedMimes = true ->
  MAX_BYTES < buffer_length (content file) ->
  upload_multipart E uuid now (Some file) st = (inl "File too large", st).
Proof.
  intros Hmime Hlen. rewrite upload_multipart_file, Hmime. cbn [negb].
  now rewrite (proj2 (Z.ltb_lt _ _) Hlen).
Qed.

End Ceiling.

(** C1, where the source departs from it. The inline branch compares the
    decoded bytes with no ceiling: whatever the length of [buffer], ten
    mebibytes and one byte included, the route given its Base64 text
    answers 200 and stores an image of that size. *)
Theorem inline_upload_has_no_ceiling
        (E : Env) (uuid : string) (now : Z) (buffer : list byte)
        (metadata : option Base64Metadata) (st : Server) :
  exists image,
    upload_json E uuid now (Base64Body (Base64.encode buffer) metadata) st
    = (Some (uploaded image), committed image st)
    /\ status (uploaded image) = 200
    /\ MemStorage.getImage uuid (storage (committed image st)) = Some image
    /\ Image.size image = Some (buffer_length buffer).
Proof.
  eexists. split; [apply upload_json_base64|].
  split; [reflexivity|]. split; [apply committed_getImage|].
  cbn [finish Image.size]. rewrite strip_data_url_encode, Base64Facts.decode_encode.
  unfold metadata_of. now destruct (sharp_metadata E buffer).
Qed.

(** ** C5: the declared format *)

Section Format.

Variable E : Env.

(** The format stored by the inline branch, case by case. *)
Lemma inline_stored_format (uuid : string) (now : Z) (data : string)
      (metadata : option Base64Metadata) (st : Server) :
  let buffer := Base64.decode (strip_data_url data) in
  let hint := JS.or_else (metadata ≫= meta_format) "unknown" in
  exists image,
    upload_json E uuid now (Base64Body data metadata) st
    = (Some (uploaded image), committed image st)
    /\ Image.format image
       = Some match sharp_metadata E buffer with
              | None => "unknown"
              | Some m => JS.or_else (sharp_format m) hint
              end.
Proof.
  cbv zeta. eexists. split; [apply upload_json_base64|].
  cbn [finish Image.format]. unfold metadata_of.
  now destruct (sharp_metadata E _).
Qed.

End Format.

(** C5, where the source departs from it. The request declares the format
    [png] and carries bytes the decoder cannot read: the stored format is
    ["unknown"], the value the extractor puts in place of a format when it
    fails, and not the declared one. *)
Lemma declared_format_lost :
  let result := upload_json sample_env "id-1" 0 (Base64Body "AAAA" png_hint) init_server in
  sharp_metadata sample_env (Base64.decode "AAAA") = None
  /\ declared_format sample_env (Base64Body "AAAA" png_hint) = "png"
  /\ (status <$> fst result) = Some 200
  /\ (Image.format <$> MemStorage.getCurrentImage (storage (snd result)))
     = Some (Some "unknown").
Proof. repeat split; vm_compute; reflexivity. Qed.

(** * Further properties of the source *)

(** ** Every upload, outcome by outcome *)

Section Outcomes.

Variable E : Env.

Lemma or_else_nonempty (a : option string) (c : ascii) (f : string) :
  exists c' f', JS.or_else a (String c f) = String c' f'.
Proof. destruct a as [[|c' f']|]; cbn; eauto. Qed.

Lemma steady_refl (st : Server) : steady E st st.
Proof. repeat split. now left. Qed.

Lemma steady_requested (url : string) (st : Server) :
  valid (validateImageUrl E url) = true -> steady E st (requested url st).
Proof. intros Hv. repeat split. right. now exists url. Qed.

Lemma finish_well_formed (uuid : string) (now : Z) (type : string)
      (buffer : list byte) (filename : string) (c : ascii) (f : string) :
  type = "base64" \/ (type = "url" /\ buffer_length buffer <= MAX_BYTES) ->
  well_formed uuid (finish E uuid now type buffer filename (String c f)).
Proof.
  intros Htype. split; [reflexivity|]. split; [|split].
  - exists (md_format (metadata_of E buffer)), buffer.
    split; [reflexivity|]. split.
    + cbn [finish Image.size]. unfold metadata_of.
      now destruct (sharp_metadata E buffer).
    + cbn [finish Image.type]. destruct Htype as [-> | [-> Hlen]]; [now left|].
      right. split; [now left | exact Hlen].
  - cbn [finish Image.format].
    destruct (or_else_nonempty (md_format (metadata_of E buffer)) c f)
      as (c' & f' & ->). eauto.
  - cbn [finish Image.filename]. eauto.
Qed.

Lemma allowed_subtype (m : string) :
  string_in m allowedMimes = true ->
  exists c f, nth_error (JS.split "/" m) 1 = Some (String c f).
Proof.
  unfold string_in, allowedMimes. cbn [existsb]. intros H.
  repeat (apply orb_prop in H as [H|H]);
    try (apply String.eqb_eq in H; subst m; cbn; eauto).
  discriminate H.
Qed.

Lemma finish_upload_well_formed (uuid : string) (now : Z) (file : FilePart) :
  string_in (mimetype file) allowedMimes = true ->
  buffer_length (content file) <= MAX_BYTES ->
  well_formed uuid (finish_upload E uuid now file).
Proof.
  intros Hmime Hlen. split; [reflexivity|]. split; [|split].
  - exists (md_format (metadata_of E (content file))), (content file).
    split; [reflexivity|]. split.
    + cbn [finish_upload Image.size]. unfold metadata_of.
      now destruct (sharp_metadata E (content file)).
    + right. split; [now right | exact Hlen].
  - cbn [finish_upload Image.format]. unfold JS.or_else_opt.
    destruct (md_format (metadata_of E (content file))) as [[|c f]|];
      cbn [JS.truthy]; eauto; apply allowed_subtype, Hmime.
  - cbn [finish_upload Image.filename]. eauto.
Qed.

(** The JSON route answers every request; it either commits one
    well-formed image and answers 200, or answers 400 or 500 and leaves the
    store, the registry and the sockets as they were. *)
Lemma json_cases (uuid : string) (now : Z) (body : Body) (st : Server) :
  exists st0,
    steady E st st0
    /\ ((exists r, upload_json E uuid now body st = (Some r, st0)
                   /\ (status r = 400 \/ status r = 500))
        \/ (exists image,
               upload_json E uuid now body st
               = (Some (uploaded image), committed image st0)
               /\ well_formed uuid image)).
Proof.
  destruct body as [data metadata|url|].
  - exists st. split; [apply steady_refl|]. right.
    eexists. split; [apply upload_json_base64|].
    destruct (or_else_nonempty (metadata ≫= meta_format) "u" "nknown")
      as (c & f & Hf).
    change (String "u" "nknown") with "unknown" in Hf. rewrite Hf.
    apply finish_well_formed. now left.
  - rewrite upload_json_url. cbv zeta.
    destruct (valid (validateImageUrl E url)) eqn:Hv; cbn [negb];
      [|exists st; split; [apply steady_refl|]; left; eexists; split;
        [reflexivity | now left]].
    exists (requested url st). split; [now apply steady_requested|].
    destruct (http_fetch E url) as [response|];
      [|left; eexists; split; [reflexivity | now right]].
    destruct (resp_ok response); cbn [negb];
      [|left; eexists; split; [reflexivity | now left]].
    destruct (resp_content_type response) as [[|c ct]|];
      try (left; eexists; split; [reflexivity | now left]).
    destruct (JS.startsWith (String c ct) "image/"); cbn [negb];
      [|left; eexists; split; [reflexivity | now left]].
    destruct (JS.truthy (resp_content_length response) && _);
      [left; eexists; split; [reflexivity | now left]|].
    destruct (resp_body response) as [bytes|];
      [|left; eexists; split; [reflexivity | now right]].
    destruct (MAX_BYTES <? buffer_length bytes) eqn:Hlen;
      [left; eexists; split; [reflexivity | now left]|].
    apply Z.ltb_ge in Hlen.
    right. eexists. split; [reflexivity|].
    destruct (or_else_nonempty (nth_error (JS.split "/" (String c ct)) 1)
                "u" "nknown") as (c' & f' & Hf).
    change (String "u" "nknown") with "unknown" in Hf. rewrite Hf.
    apply finish_well_formed. right. now split.
  - exists st. split; [apply steady_refl|]. left.
    eexists. split; [reflexivity | now left].
Qed.

(** The multipart route: refused by the middleware, answered 400 for want
    of a file, or one well-formed image committed and answered 200. *)
Lemma multipart_cases (uuid : string) (now : Z) (part : option FilePart)
      (st : Server) :
  (exists err, upload_multipart E uuid now part st = (inl err, st))
  \/ (exists r, upload_multipart E uuid now part st = (inr (Some r), st)
                /\ status r = 400)
  \/ (exists image,
         upload_multipart E uuid now part st
         = (inr (Some (uploaded image)), committed image st)
         /\ well_formed uuid image).
Proof.
  destruct part as [file|].
  - rewrite upload_multipart_file.
    destruct (string_in (mimetype file) allowedMimes) eqn:Hmime; cbn [negb];
      [|left; eauto].
    destruct (MAX_BYTES <? buffer_length (content file)) eqn:Hlen;
      [left; eauto|].
    apply Z.ltb_ge in Hlen.
    right. right. eexists. split; [reflexivity|].
    now apply finish_upload_well_formed.
  - right. left. eexists. split; [reflexivity | reflexivity].
Qed.

(** An upload event either leaves the state steady and commits nothing, or
    commits one well-formed image on a steady state. *)
Lemma post_cases (ev : Event) (st : Server) :
  is_post ev = true ->
  exists st0,
    steady E st st0
    /\ ((step E ev st = st0 /\ committed_by E ev st = None)
        \/ (exists image,
               step E ev st = committed image st0
               /\ committed_by E ev st = Some image
               /\ well_formed (Image.id image) image
               /\ (uuid_ok ev = true -> Image.id image <> EmptyString))).
Proof.
  destruct ev as [w|w|w|w m|ms|uuid now body|uuid now part]; try discriminate.
  - intros _. destruct (json_cases uuid now body st)
      as (st0 & Hsteady & [(r & Hroute & Hstatus) | (image & Hroute & Hwf)]);
      exists st0; (split; [exact Hsteady|]).
    + left. cbn [step committed_by]. rewrite Hroute. cbn [snd].
      split; [reflexivity|]. now destruct Hstatus as [-> | ->].
    + right. exists image. cbn [step committed_by]. rewrite Hroute. cbn [snd].
      pose proof Hwf as (Hid & _).
      split; [reflexivity|]. split; [|split].
      * cbn [uploaded status]. rewrite Z.eqb_refl, <- Hid.
        apply committed_getImage.
      * now rewrite Hid.
      * rewrite Hid. cbn [uuid_ok]. now destruct uuid.
  - intros _. destruct (multipart_cases uuid now part st)
      as [(err & Hroute) | [(r & Hroute & Hstatus) | (image & Hroute & Hwf)]].
    + exists st. split; [apply steady_refl|]. left.
      cbn [step committed_by]. now rewrite Hroute.
    + exists st. split; [apply steady_refl|]. left.
      cbn [step committed_by]. rewrite Hroute, Hstatus. now split.
    + exists st. split; [apply steady_refl|]. right. exists image.
      cbn [step committed_by]. rewrite Hroute. cbn [snd].
      pose proof Hwf as (Hid & _).
      split; [reflexivity|]. split; [|split].
      * cbn [uploaded status]. rewrite Z.eqb_refl, <- Hid.
        apply committed_getImage.
      * now rewrite Hid.
      * rewrite Hid. cbn [uuid_ok]. now destruct uuid.
Qed.

End Outcomes.

(** ** What holds in every state the process can reach *)

Section Invariants.

Variable E : Env.

Lemma run_invariant (P : Server -> Prop) (ok : Event -> bool) :
  (forall ev st, ok ev = true -> P st -> P (step E ev st)) ->
  forall evs st, forallb ok evs = true -> P st -> P (run E evs st).
Proof.
  intros Hstep evs. induction evs as [|ev evs IH]; intros st Hall HP; [exact HP|].
  cbn [forallb] in Hall. apply andb_prop in Hall as [Hev Hall].
  cbn [run fold_left]. apply IH; [exact Hall|]. now apply Hstep.
Qed.

Lemma run_cons (ev : Event) (evs : list Event) (st : Server) :
  run E (ev :: evs) st = run E evs (step E ev st).
Proof. reflexivity. Qed.

(** The events other than uploads leave the store and the fetch log alone. *)
Lemma quiet_storage (ev : Event) (st : Server) :
  is_post ev = false ->
  storage (step E ev st) = storage st /\ fetched (step E ev st) = fetched st.
Proof.
  destruct ev as [w|w|w|w m|ms|uuid now body|uuid now part];
    intros Hpost; try discriminate Hpost; try (split; reflexivity).
  cbn [step]. unfold on_connection.
  destruct (MemStorage.getCurrentImage _); [destruct (socket_open _ _)|];
    split; reflexivity.
Qed.

Lemma connection_clients (w : nat) (st : Server) :
  clients (step E (Connection w) st) = {[w]} ∪ clients st.
Proof.
  cbn [step]. unfold on_connection.
  destruct (MemStorage.getCurrentImage _); [destruct (socket_open _ _)|];
    reflexivity.
Qed.

Lemma connection_other (w w' : nat) (st : Server) :
  w <> w' -> sockets (step E (Connection w') st) !! w = sockets st !! w.
Proof.
  intros Hne. cbn [step]. unfold on_connection.
  destruct (MemStorage.getCurrentImage _); [destruct (socket_open _ _)|];
    cbn [sockets send_to ws_accept];
    rewrite ?lookup_alter_ne by congruence; now rewrite lookup_insert_ne.
Qed.

Lemma closed_other (w w' : nat) (st : Server) :
  w <> w' -> sockets (step E (Closed w') st) !! w = sockets st !! w.
Proof. intros Hne. cbn. now rewrite lookup_alter_ne. Qed.

Lemma sent_eq (st st' : Server) (w : nat) :
  sockets st' !! w = sockets st !! w ->
  sent st' w = sent st w /\ socket_open st' w = socket_open st w.
Proof. intros H. unfold sent, socket_open. now rewrite H. Qed.

Lemma committed_open (image : Image.t) (st : Server) (w : nat) :
  socket_open (committed image st) w = socket_open st w.
Proof.
  unfold socket_open, committed, broadcastImageUpdate. cbn [sockets].
  rewrite map_lookup_imap.
  destruct (sockets st !! w) as [s|]; cbn; [|reflexivity].
  now destruct (bool_decide (w ∈ clients st) && is_open s).
Qed.

Lemma committed_storage (image : Image.t) (st : Server) (i : string) :
  MemStorage.images (storage (committed image st)) !! i
  = if decide (Image.id image = i) then Some image
    else MemStorage.images (storage st) !! i.
Proof.
  cbn [committed broadcastImageUpdate storage MemStorage.images].
  apply lookup_insert.
Qed.

Lemma last_update_snoc (frames : list WsMessage) (image : Image.t) :
  last_update (frames ++ [image_update image]) = Some image.
Proof. unfold last_update. now rewrite fold_left_app. Qed.

(** *** The hub sends nothing but image updates *)

Lemma only_updates_step (ev : Event) (st : Server) :
  only_updates st -> only_updates (step E ev st).
Proof.
  intros Hst w.
  destruct (is_post ev) eqn:Hpost.
  - destruct (post_cases E ev st Hpost)
      as (st0 & (_ & _ & Hsock & _) & [[-> _] | (image & -> & _)]).
    + unfold sent. rewrite Hsock. apply Hst.
    + rewrite committed_sent.
      assert (H0 : forallb is_update (sent st0 w) = true)
        by (unfold sent; rewrite Hsock; apply Hst).
      destruct (_ && _); [|exact H0].
      rewrite forallb_app, H0. reflexivity.
  - destruct ev as [w'|w'|w'|w' m|ms|uuid now body|uuid now part];
      try discriminate Hpost; try apply Hst.
    + destruct (Nat.eq_dec w w') as [->|Hne].
      * rewrite connection_sent. now destruct (MemStorage.getCurrentImage _).
      * destruct (sent_eq st _ w (connection_other w w' st Hne)) as [-> _].
        apply Hst.
    + unfold sent. cbn [step on_close clients_delete ws_closed sockets].
      destruct (Nat.eq_dec w w') as [->|Hne].
      * rewrite lookup_alter_eq. specialize (Hst w'). unfold sent in Hst.
        now destruct (sockets st !! w').
      * rewrite lookup_alter_ne by congruence. apply Hst.
Qed.

(** *** A live subscriber is up to date *)

Lemma up_to_date_step (ev : Event) (st : Server) :
  uuid_ok ev = true -> up_to_date st -> up_to_date (step E ev st).
Proof.
  intros Hok Hst w Hin Hopen.
  destruct (is_post ev) eqn:Hpost.
  - destruct (post_cases E ev st Hpost)
      as (st0 & (Hsto & Hcl & Hsock & _)
          & [[Heq _] | (image & Heq & _ & _ & Hid)]); rewrite Heq in *.
    + destruct (sent_eq st st0 w ltac:(now rewrite Hsock)) as [-> Ho].
      rewrite Hsto. apply Hst; [now rewrite <- Hcl | now rewrite <- Ho].
    + rewrite committed_clients in Hin. rewrite committed_open in Hopen.
      rewrite committed_sent, Hopen, (bool_decide_eq_true_2 _ Hin). cbn [andb].
      rewrite last_update_snoc. symmetry. apply committed_current. now apply Hid.
  - destruct (quiet_storage ev st Hpost) as [-> _].
    destruct ev as [w'|w'|w'|w' m|ms|uuid now body|uuid now part];
      try discriminate Hpost; try (now apply Hst).
    + destruct (Nat.eq_dec w w') as [->|Hne].
      * rewrite connection_sent.
        now destruct (MemStorage.getCurrentImage (storage st)).
      * destruct (sent_eq st _ w (connection_other w w' st Hne)) as [Hs Ho].
        rewrite Hs. rewrite Ho in Hopen. rewrite connection_clients in Hin.
        apply Hst; [|exact Hopen].
        apply elem_of_union in Hin as [Hin|Hin]; [|exact Hin].
        apply elem_of_singleton in Hin. congruence.
    + assert (Hne : w <> w').
      { intros ->. revert Hin. apply step_drops. }
      destruct (sent_eq st _ w (closed_other w w' st Hne)) as [Hs Ho].
      rewrite Hs. rewrite Ho in Hopen. apply Hst; [|exact Hopen].
      cbn in Hin. now apply elem_of_difference in Hin as [Hin _].
    + apply Hst; [|exact Hopen].
      cbn in Hin. now apply elem_of_difference in Hin as [Hin _].
Qed.

(** *** Only accepted URLs are fetched *)

Lemma fetched_valid_step (ev : Event) (st : Server) :
  fetched_valid E st -> fetched_valid E (step E ev st).
Proof.
  intros Hst url Hin.
  destruct (is_post ev) eqn:Hpost.
  - destruct (post_cases E ev st Hpost)
      as (st0 & (_ & _ & _ & Hf) & [[Heq _] | (image & Heq & _)]);
      rewrite Heq in Hin;
      try change (fetched (committed image st0)) with (fetched st0) in Hin;
      (destruct Hf as [Hf | (u & Hf & Hv)]; rewrite Hf in Hin;
       [now apply Hst|];
       apply in_app_or in Hin as [Hin | [<- | []]]; [now apply Hst | exact Hv]).
  - destruct (quiet_storage ev st Hpost) as [_ Hf]. rewrite Hf in Hin.
    now apply Hst.
Qed.

(** *** Every stored image is well formed *)

Lemma store_well_formed_step (ev : Event) (st : Server) :
  store_well_formed st -> store_well_formed (step E ev st).
Proof.
  intros Hst i image' Hget.
  destruct (is_post ev) eqn:Hpost.
  - destruct (post_cases E ev st Hpost)
      as (st0 & (Hsto & _) & [[Heq _] | (image & Heq & _ & Hwf & _)]);
      rewrite Heq in Hget.
    + rewrite Hsto in Hget. now apply Hst.
    + unfold MemStorage.getImage in Hget. rewrite committed_storage in Hget.
      destruct (decide (Image.id image = i)) as [<-|Hne].
      * injection Hget as <-. exact Hwf.
      * rewrite Hsto in Hget. now apply Hst.
  - destruct (quiet_storage ev st Hpost) as [Hsto _]. rewrite Hsto in Hget.
    now apply Hst.
Qed.

End Invariants.

(** ** The hub and the store over whole runs *)

Lemma only_updates_run (E : Env) (evs : list Event) :
  only_updates (run E evs init_server).
Proof.
  apply (run_invariant E only_updates (fun _ => true)).
  - intros ev st _. apply only_updates_step.
  - now apply forallb_forall.
  - intros w'. reflexivity.
Qed.

Lemma up_to_date_run (E : Env) (evs : list Event) :
  forallb uuid_ok evs = true -> up_to_date (run E evs init_server).
Proof.
  intros Hok. apply (run_invariant E up_to_date uuid_ok); [|exact Hok|].
  - intros ev st'. apply up_to_date_step.
  - intros w Hin. cbn in Hin. now apply not_elem_of_empty in Hin.
Qed.

(** X1. Whatever happens to the process, every frame the hub has written
    to any socket is an [image_update]: it never sends a [pong], nor
    anything else. *)
Theorem hub_sends_only_updates (E : Env) (evs : list Event) (w : nat) :
  forallb is_update (sent (run E evs init_server) w) = true.
Proof. apply only_updates_run. Qed.

(** X2. In every state reached from the start by events whose uploads drew
    non-empty identifiers, the last image update written to a socket that
    is registered and open carries the store's current image, and none has
    been written to it when the store has no current image. *)
Theorem live_subscriber_is_current (E : Env) (evs : list Event) (w : nat) :
  forallb uuid_ok evs = true ->
  let st := run E evs init_server in
  w ∈ clients st ->
  socket_open st w = true ->
  last_update (sent st w) = MemStorage.getCurrentImage (storage st).
Proof. intros Hok st. now apply up_to_date_run. Qed.

Lemma live_subscriber_is_current_witness :
  let evs := [Connection 1; PostJson "id-1" 5 (Base64Body "AAAA" None);
              Connection 2; PostJson "id-2" 9 (Base64Body "SUkqAA==" None)] in
  let st := run sample_env evs init_server in
  forallb uuid_ok evs = true
  /\ 1%nat ∈ clients st
  /\ socket_open st 1 = true
  /\ last_update (sent st 1) = MemStorage.getCurrentImage (storage st).
Proof.
  assert (Hin : 1%nat ∈ clients (run sample_env
            [Connection 1; PostJson "id-1" 5 (Base64Body "AAAA" None);
             Connection 2; PostJson "id-2" 9 (Base64Body "SUkqAA==" None)]
            init_server)).
  { rewrite run_cons. apply run_keeps; [reflexivity | apply connection_joined]. }
  split; [reflexivity|]. split; [exact Hin|]. split; [vm_compute; reflexivity|].
  apply (live_subscriber_is_current sample_env); [reflexivity|exact Hin|].
  vm_compute; reflexivity.
Defined.

Section Order.

Variable E : Env.


Lemma current_step (ev : Event) (st : Server) :
  uuid_ok ev = true ->
  MemStorage.getCurrentImage (storage (step E ev st))
  = match committed_by E ev st with
    | Some image => Some image
    | None => MemStorage.getCurrentImage (storage st)
    end.
Proof.
  intros Hok. destruct (is_post ev) eqn:Hpost.
  - destruct (post_cases E ev st Hpost)
      as (st0 & (Hsto & _) & [[-> ->] | (image & -> & -> & _ & Hid)]).
    + now rewrite Hsto.
    + apply committed_current. now apply Hid.
  - destruct (quiet_storage E ev st Hpost) as [-> _].
    now destruct ev; try discriminate Hpost.
Qed.

Lemma current_run (evs : list Event) (st : Server) :
  forallb uuid_ok evs = true ->
  MemStorage.getCurrentImage (storage (run E evs st))
  = match last (commits_of E evs st) with
    | Some image => Some image
    | None => MemStorage.getCurrentImage (storage st)
    end.
Proof.
  revert st. induction evs as [|ev evs IH]; intros st Hok; [reflexivity|].
  cbn [forallb] in Hok. apply andb_prop in Hok as [Hev Hok].
  rewrite run_cons, (IH _ Hok), (current_step ev st Hev).
  cbn [commits_of].
  destruct (committed_by E ev st) as [image|]; [|reflexivity].
  rewrite last_cons. now destruct (last _).
Qed.

End Order.



(** X4. After any events whose uploads drew non-empty identifiers,
    [getCurrentImage] returns the image committed last by an upload that
    was answered 200, and [GET /api/v1/image/current] answers 404 exactly
    when no upload has been answered 200 yet. *)
Theorem current_is_last_commit (E : Env) (evs : list Event) :
  forallb uuid_ok evs = true ->
  let st := run E evs init_server in
  MemStorage.getCurrentImage (storage st) = last (commits_of E evs init_server)
  /\ get_current st
     = match last (commits_of E evs init_server) with
       | Some image => (200, Some image)
       | None => (404, None)
       end
  /\ (fst (get_current st) = 404 <-> commits_of E evs init_server = []).
Proof.
  intros Hok st.
  assert (Hcur : MemStorage.getCurrentImage (storage st)
                 = last (commits_of E evs init_server)).
  { unfold st. rewrite (current_run E evs init_server Hok).
    now destruct (last _). }
  split; [exact Hcur|]. unfold get_current. rewrite Hcur.
  split; [now destruct (last _)|].
  destruct (last (commits_of E evs init_server)) eqn:Hlast; cbn [fst].
  - split; [discriminate|]. intros Hnil. rewrite Hnil in Hlast. discriminate.
  - apply last_None in Hlast. now split.
Qed.

Lemma current_is_last_commit_witness :
  let evs := [PostJson "id-1" 5 (UrlBody "http://intranet.example/logo.png");
              Connection 1] in
  forallb uuid_ok evs = true
  /\ commits_of sample_env evs init_server = []
  /\ fst (get_current (run sample_env evs init_server)) = 404.
Proof.
  split; [reflexivity|]. split; [vm_compute; reflexivity|].
  apply (current_is_last_commit sample_env
           [PostJson "id-1" 5 (UrlBody "http://intranet.example/logo.png");
            Connection 1] eq_refl).
  vm_compute; reflexivity.
Defined.

(** X5. In every state the process can reach, each URL that the route has
    passed to [fetch] is one that [validateImageUrl] accepted. The
    statement is about the argument of the call; where the library goes
    from there by following redirects is outside it. *)
Theorem only_accepted_urls_fetched
        (E : Env) (evs : list Event) (url : string) :
  In url (fetched (run E evs init_server)) ->
  valid (validateImageUrl E url) = true.
Proof.
  revert url.
  apply (run_invariant E (fetched_valid E) (fun _ => true)).
  - intros ev st _. apply fetched_valid_step.
  - now apply forallb_forall.
  - intros url [].
Qed.

Lemma only_accepted_urls_fetched_witness :
  let evs := [PostJson "id-1" 5 (UrlBody "http://intranet.example/logo.png");
              PostJson "id-2" 9 (UrlBody "http://cdn.example/scan.tiff")] in
  fetched (run sample_env evs init_server) = ["http://cdn.example/scan.tiff"]
  /\ valid (validateImageUrl sample_env "http://cdn.example/scan.tiff") = true.
Proof.
  split; [vm_compute; reflexivity|].
  apply (only_accepted_urls_fetched sample_env
           [PostJson "id-1" 5 (UrlBody "http://intranet.example/logo.png");
            PostJson "id-2" 9 (UrlBody "http://cdn.example/scan.tiff")]).
  vm_compute. now left.
Defined.

(** X6. Every image found in the store of a reachable state is stored
    under its own identifier, has a payload of the form
    [data:image/<format>;base64,<Base64 of some bytes>] with [size] the
    number of those bytes, a non-empty format and a file name; if it came
    through the URL or the multipart route it is at most 10 MiB. *)
Theorem stored_images_well_formed
        (E : Env) (evs : list Event) (i : string) (image : Image.t) :
  MemStorage.getImage i (storage (run E evs init_server)) = Some image ->
  well_formed i image.
Proof.
  revert i image.
  apply (run_invariant E store_well_formed (fun _ => true)).
  - intros ev st _. apply store_well_formed_step.
  - now apply forallb_forall.
  - intros i image Hget. unfold MemStorage.getImage in Hget.
    cbn [init_server storage MemStorage.empty MemStorage.images] in Hget.
    now rewrite lookup_empty in Hget.
Qed.

Lemma stored_images_well_formed_witness :
  let evs := [PostJson "id-1" 5 (UrlBody "http://cdn.example/scan.tiff")] in
  exists image,
    MemStorage.getImage "id-1" (storage (run sample_env evs init_server))
    = Some image
    /\ well_formed "id-1" image.
Proof.
  eexists. split; [vm_compute; reflexivity|].
  apply (stored_images_well_formed sample_env
           [PostJson "id-1" 5 (UrlBody "http://cdn.example/scan.tiff")]).
  vm_compute; reflexivity.
Defined.

(** ** The routes as a whole *)

(** X7. Both upload routes answer every request themselves. The JSON route
    answers 200, 400 or 500 and the multipart route, when its middleware
    lets the request through, 200 or 400; an answer other than 200 leaves
    the store, the registry and every socket as they were, and so does a
    refusal by the middleware. *)
Theorem failed_upload_changes_nothing
        (E : Env) (uuid : string) (now : Z) (st : Server) :
  (forall body,
      exists r st',
        upload_json E uuid now body st = (Some r, st')
        /\ (status r = 200 \/ status r = 400 \/ status r = 500)
        /\ (status r <> 200 ->
            storage st' = storage st /\ clients st' = clients st
            /\ sockets st' = sockets st))
  /\ (forall part,
        (exists err, upload_multipart E uuid now part st = (inl err, st))
        \/ (exists r st',
               upload_multipart E uuid now part st = (inr (Some r), st')
               /\ (status r = 200 \/ status r = 400)
               /\ (status r <> 200 -> st' = st))).
Proof.
  split.
  - intros body.
    destruct (json_cases E uuid now body st)
      as (st0 & (Hsto & Hcl & Hsock & _)
          & [(r & Hroute & Hstatus) | (image & Hroute & _)]).
    + exists r, st0. split; [exact Hroute|]. split; [tauto|]. now intros _.
    + eexists _, _. split; [exact Hroute|]. split; [now left|].
      intros Hne. now destruct Hne.
  - intros part.
    destruct (multipart_cases E uuid now part st)
      as [(err & Hroute) | [(r & Hroute & Hstatus) | (image & Hroute & _)]].
    + left. eauto.
    + right. exists r, st. split; [exact Hroute|]. split; [now right|]. now intros _.
    + right. eexists _, _. split; [exact Hroute|]. split; [now left|].
      intros Hne. now destruct Hne.
Qed.

Lemma failed_upload_changes_nothing_witness :
  let result := upload_json sample_env "id-1" 5
                  (UrlBody "http://intranet.example/logo.png") init_server in
  exists r,
    fst result = Some r
    /\ status r <> 200
    /\ storage (snd result) = storage init_server.
Proof.
  destruct (proj1 (failed_upload_changes_nothing sample_env "id-1" 5 init_server)
              (UrlBody "http://intranet.example/logo.png"))
    as (r & st' & Hroute & _ & Hkeep).
  assert (Hr : status r = 400).
  { vm_compute in Hroute. now injection Hroute as <- _. }
  exists r. cbv zeta. rewrite Hroute. cbn [fst snd].
  split; [reflexivity|]. split; [now rewrite Hr|].
  apply Hkeep. now rewrite Hr.
Defined.

Section Reingest.

Variable E : Env.

Lemma strip_prefix_app (p s : string) : strip_prefix p (p +:+ s) = Some s.
Proof.
  induction p as [|c p IH]; [now destruct s|].
  change (String c p +:+ s) with (String c (p +:+ s)).
  cbn [strip_prefix]. now rewrite Ascii.eqb_refl.
Qed.

Lemma drop_lower_app (format rest : string) :
  all_lower format = true ->
  drop_lower (format +:+ String ";" rest) = String ";" rest.
Proof.
  induction format as [|c f IH]; intros Hl; [reflexivity|].
  cbn [all_lower] in Hl. apply andb_prop in Hl as [Hc Hf].
  change (String c f +:+ String ";" rest) with (String c (f +:+ String ";" rest)).
  cbn [drop_lower]. rewrite Hc. now apply IH.
Qed.

Lemma length_append (a b : string) :
  String.length (a +:+ b) = (String.length a + String.length b)%nat.
Proof.
  induction a as [|c a IH]; [reflexivity|].
  change (S (String.length (a +:+ b)) = S (String.length a + String.length b)).
  now rewrite IH.
Qed.

(** The prefix removal of the inline branch undoes the header that the
    routes put in front of a payload, when the format is made of lower-case
    letters. *)
Lemma strip_data_url_header (format : string) (buffer : list byte) :
  all_lower format = true ->
  format <> EmptyString ->
  strip_data_url (data_url (Some format) buffer) = Base64.encode buffer.
Proof.
  intros Hl Hne. unfold strip_data_url, data_url. cbn [JS.template].
  rewrite strip_prefix_app.
  change (";base64," +:+ Base64.encode buffer)
    with (String ";" ("base64," +:+ Base64.encode buffer)).
  rewrite (drop_lower_app _ _ Hl).
  assert (Hlen : (String.length (String ";" ("base64," +:+ Base64.encode buffer))
                  <? String.length
                       (format +:+ String ";" ("base64," +:+ Base64.encode buffer)))%nat
                 = true).
  { apply Nat.ltb_lt. rewrite length_append.
    destruct format; [congruence | cbn; lia]. }
  rewrite Hlen.
  change (String ";" ("base64," +:+ Base64.encode buffer))
    with (";base64," +:+ Base64.encode buffer).
  now rewrite strip_prefix_app.
Qed.

End Reingest.

(** X8. A stored payload can be posted back inline. If the format in its
    header is a non-empty word of lower-case letters, the route removes the
    header, recovers the same bytes and stores them with the same size;
    and where the extractor reports that same format for those bytes, the
    payload stored is the payload posted. *)
Theorem stored_payload_reingests
        (E : Env) (uuid : string) (now : Z) (format : string)
        (buffer : list byte) (metadata : option Base64Metadata) (st : Server) :
  all_lower format = true ->
  format <> EmptyString ->
  exists image,
    upload_json E uuid now (Base64Body (data_url (Some format) buffer) metadata) st
    = (Some (uploaded image), committed image st)
    /\ received E (Base64Body (data_url (Some format) buffer) metadata) = Some buffer
    /\ Image.size image = Some (buffer_length buffer)
    /\ ((sharp_metadata E buffer ≫= sharp_format) = Some format ->
        Image.data image = data_url (Some format) buffer).
Proof.
  intros Hl Hne.
  assert (Hdec : Base64.decode (strip_data_url (data_url (Some format) buffer))
                 = buffer).
  { rewrite (strip_data_url_header format buffer Hl Hne).
    apply Base64Facts.decode_encode. }
  eexists. split; [apply upload_json_base64|].
  cbn [received]. rewrite Hdec. split; [reflexivity|].
  cbn [finish Image.size Image.data]. unfold metadata_of.
  destruct (sharp_metadata E buffer) as [m|]; cbn [md_size md_format mbind option_bind];
    (split; [reflexivity|]); [|discriminate].
  now intros ->.
Qed.

Lemma stored_payload_reingests_witness :
  all_lower "tiff" = true
  /\ "tiff" <> EmptyString
  /\ exists image,
       upload_json sample_env "id-2" 7
                   (Base64Body (data_url (Some "tiff") tiff_header) None) init_server
       = (Some (uploaded image), committed image init_server)
       /\ Image.data image = data_url (Some "tiff") tiff_header.
Proof.
  split; [reflexivity|]. split; [discriminate|].
  destruct (stored_payload_reingests sample_env "id-2" 7 "tiff" tiff_header None
              init_server eq_refl ltac:(discriminate))
    as (image & Hroute & _ & _ & Hdata).
  exists image. split; [exact Hroute | exact (Hdata eq_refl)].
Defined.

(** ** The store under any identifiers *)

Section Collisions.

Lemma getImage_commit_all (cs : list Commit) (s : MemStorage.t) (i : string) :
  MemStorage.getImage i (snd (commit_all cs s))
  = match last (List.filter (has_id i) (fst (commit_all cs s))) with
    | Some image => Some image
    | None => MemStorage.getImage i s
    end.
Proof.
  revert s. induction cs as [|[[uuid now] ins] cs IH]; intros s; [reflexivity|].
  rewrite commit_all_cons. cbn [fst snd]. rewrite IH.
  cbn [List.filter]. unfold has_id at 2.
  cbn [MemStorage.storeImage fst snd Image.id].
  destruct (String.eqb uuid i) eqn:Heq.
  - apply String.eqb_eq in Heq. subst i. rewrite last_cons.
    destruct (last _); [reflexivity|].
    unfold MemStorage.getImage. cbn [MemStorage.images]. apply lookup_insert_eq.
  - apply String.eqb_neq in Heq.
    destruct (last _); [reflexivity|].
    unfold MemStorage.getImage. cbn [MemStorage.images].
    now apply lookup_insert_ne.
Qed.

End Collisions.

(** X9. After any commits, with identifiers distinct or not, [getImage]
    returns under an identifier the image of the last commit that drew it,
    and what the store held before when none did: an identifier once
    present stays present, and a repeated identifier overwrites. *)
Theorem getImage_returns_last_with_id
        (cs : list Commit) (s : MemStorage.t) (i : string) :
  MemStorage.getImage i (snd (commit_all cs s))
  = match last (List.filter (has_id i) (fst (commit_all cs s))) with
    | Some image => Some image
    | None => MemStorage.getImage i s
    end
  /\ (is_Some (MemStorage.getImage i s) ->
      is_Some (MemStorage.getImage i (snd (commit_all cs s)))).
Proof.
  split; [apply getImage_commit_all|].
  rewrite getImage_commit_all. now destruct (last _).
Qed.

Lemma getImage_returns_last_with_id_witness :
  let cs := [("id-1", 1, sample_insert "AAAA"); ("id-1", 2, sample_insert "BBBB")] in
  let s := snd (commit_all [("id-1", 0, sample_insert "CCCC")] MemStorage.empty) in
  is_Some (MemStorage.getImage "id-1" s)
  /\ (Image.data <$> MemStorage.getImage "id-1" (snd (commit_all cs s)))
     = Some "BBBB"
  /\ is_Some (MemStorage.getImage "id-1" (snd (commit_all cs s))).
Proof.
  assert (H : is_Some (MemStorage.getImage "id-1"
            (snd (commit_all [("id-1", 0, sample_insert "CCCC")] MemStorage.empty))))
    by (eexists; vm_compute; reflexivity).
  split; [exact H|]. split; [vm_compute; reflexivity|].
  exact (proj2 (getImage_returns_last_with_id
                  [("id-1", 1, sample_insert "AAAA"); ("id-1", 2, sample_insert "BBBB")]
                  _ "id-1") H).
Defined.

(** ** Literal hosts *)

Section Literal.

Lemma toLowerCase_app (a b : string) :
  JS.toLowerCase (a +:+ b) = JS.toLowerCase a +:+ JS.toLowerCase b.
Proof.
  induction a as [|c a IH]; [reflexivity|].
  change (String c a +:+ b) with (String c (a +:+ b)).
  cbn [JS.toLowerCase]. now rewrite IH.
Qed.

Lemma toLowerCase_octet (n : Z) :
  0 <= n <= 255 -> JS.toLowerCase (JS.toString n) = JS.toString n.
Proof.
  intros Hn. apply String.eqb_eq.
  apply (forallb_below_Z 256
           (fun n => String.eqb (JS.toLowerCase (JS.toString n)) (JS.toString n)));
    [vm_compute; reflexivity | lia].
Qed.

Lemma toLowerCase_dotted (a b c d : Z) :
  octets a b c d -> JS.toLowerCase (dotted a b c d) = dotted a b c d.
Proof.
  intros (Ha & Hb & Hc & Hd). unfold dotted. cbn [JS.join].
  repeat (rewrite toLowerCase_app;
          change (JS.toLowerCase (String "." ?s))
            with (String "." (JS.toLowerCase s))).
  now rewrite !toLowerCase_octet.
Qed.

End Literal.

(** X10. A URL whose host is a dotted quad in 127/8, 10/8, 172.16/12,
    192.168/16, 169.254/16 or 0/8 is refused whatever the resolver would
    answer for it, and the route leaves the state as it was: no request
    goes out. *)
Theorem private_literal_host_refused
        (E : Env) (url protocol : string) (a b c d : Z)
        (uuid : string) (now : Z) (st : Server) :
  url_parse E url = Some (protocol, dotted a b c d) ->
  octets a b c d ->
  SpecAddr.private_v4 a b = true ->
  valid (validateImageUrl E url) = false
  /\ exists reason,
       upload_json E uuid now (UrlBody url) st = (Some (failure 400 reason), st).
Proof.
  intros Hparse Ho Hp.
  assert (Hv : valid (validateImageUrl E url) = false).
  { unfold validateImageUrl. rewrite Hparse.
    destruct (negb _); [reflexivity|].
    rewrite (toLowerCase_dotted _ _ _ _ Ho).
    destruct (_ || _); [reflexivity|].
    now rewrite (isPrivateIP_dotted _ _ _ _ Ho), Hp. }
  split; [exact Hv|].
  eexists. rewrite upload_json_url. cbv zeta. rewrite Hv. reflexivity.
Qed.

Lemma private_literal_host_refused_witness :
  let E := {| url_parse := fun _ => Some ("http:", "169.254.169.254");
              dns_lookup := fun _ => Some ["93.184.216.34"];
              http_fetch := http_fetch sample_env;
              sharp_metadata := sharp_metadata sample_env |} in
  url_parse E "http://169.254.169.254/latest" = Some ("http:", dotted 169 254 169 254)
  /\ octets 169 254 169 254
  /\ SpecAddr.private_v4 169 254 = true
  /\ valid (validateImageUrl E "http://169.254.169.254/latest") = false.
Proof.
  split; [reflexivity|].
  assert (Ho : octets 169 254 169 254) by (unfold octets; lia).
  split; [exact Ho|]. split; [reflexivity|].
  exact (proj1 (private_literal_host_refused
                  {| url_parse := fun _ => Some ("http:", "169.254.169.254");
                     dns_lookup := fun _ => Some ["93.184.216.34"];
                     http_fetch := http_fetch sample_env;
                     sharp_metadata := sharp_metadata sample_env |}
                  "http://169.254.169.254/latest" "http:" 169 254 169 254
                  "id-1" 0 init_server eq_refl Ho eq_refl)).
Defined.

(** ** The client hook *)

Section HookFacts.

Lemma receive_all_updates (frames : list (Z * WsMessage)) (h : Hook.t) :
  forallb is_update (map snd frames) = true ->
  let h' := Hook.receive_all frames h in
  Hook.currentImage h'
  = match last_update (map snd frames) with
    | Some image => Some image
    | None => Hook.currentImage h
    end
  /\ Hook.lastPing h' = Hook.lastPing h
  /\ Hook.messagesReceived h' = Hook.messagesReceived h + Z.of_nat (length frames)
  /\ Hook.connectionStatus h' = Hook.connectionStatus h.
Proof.
  revert h. induction frames as [|[now m] frames IH] using rev_ind; intros h Hall.
  - cbn. repeat split. lia.
  - rewrite map_app, forallb_app in Hall. apply andb_prop in Hall as [Hall Hm].
    cbn [map snd forallb] in Hm. destruct m as [image|t|t]; try discriminate Hm.
    destruct (IH h Hall) as (Hc & Hp & Hn & Hs).
    unfold Hook.receive_all in *. rewrite fold_left_app. cbn [fold_left].
    set (h1 := fold_left _ frames h) in *.
    cbn [fst snd Hook.onmessage Hook.currentImage Hook.lastPing
         Hook.messagesReceived Hook.connectionStatus].
    rewrite map_app. cbn [map snd]. rewrite last_update_snoc.
    split; [reflexivity|]. split; [exact Hp|]. split; [|exact Hs].
    rewrite Hn, length_app. cbn [length]. lia.
Qed.

Lemma length_combine_eq {A B} (l : list A) (k : list B) :
  length l = length k -> map snd (combine l k) = k /\ length (combine l k) = length k.
Proof.
  revert k. induction l as [|x l IH]; intros [|y k] Hlen; try discriminate Hlen;
    [now split|].
  injection Hlen as Hlen. destruct (IH k Hlen) as [Hm Hl].
  cbn. now rewrite Hm, Hl.
Qed.

End HookFacts.

(** X11. A fresh client hook that has handled, in order and at any times,
    the frames written to its socket, the socket being registered and open
    in a state reached by events whose uploads drew non-empty identifiers:
    it shows the store's current image, it has counted every frame, and it
    has no latency to show, the hub having sent no [pong]. *)
Theorem subscriber_shows_current_image
        (E : Env) (evs : list Event) (w : nat) (times : list Z) :
  forallb uuid_ok evs = true ->
  let st := run E evs init_server in
  w ∈ clients st ->
  socket_open st w = true ->
  length times = length (sent st w) ->
  let h := Hook.receive_all (combine times (sent st w)) Hook.initial in
  Hook.currentImage h = MemStorage.getCurrentImage (storage st)
  /\ Hook.messagesReceived h = Z.of_nat (length (sent st w))
  /\ Hook.lastPing h = None.
Proof.
  intros Hok st Hin Hopen Hlen h. subst st h.
  destruct (length_combine_eq times _ Hlen) as [Hmap Hl].
  destruct (receive_all_updates
              (combine times (sent (run E evs init_server) w)) Hook.initial)
    as (Hc & Hp & Hn & _).
  { rewrite Hmap. apply only_updates_run. }
  cbv zeta in Hc, Hp, Hn. rewrite Hmap in Hc. rewrite Hl in Hn.
  split; [|split; [exact Hn | exact Hp]].
  rewrite Hc, (up_to_date_run E evs Hok w Hin Hopen).
  now destruct (MemStorage.getCurrentImage _).
Qed.

Lemma subscriber_shows_current_image_witness :
  let evs := [Connection 1; PostJson "id-1" 5 (Base64Body "AAAA" None);
              Received 1 (ping 6);
              PostJson "id-2" 9 (Base64Body "SUkqAA==" None)] in
  let st := run sample_env evs init_server in
  let h := Hook.receive_all (combine [5; 9] (sent st 1)) Hook.initial in
  forallb uuid_ok evs = true
  /\ length [5; 9] = length (sent st 1)
  /\ Hook.currentImage h = MemStorage.getCurrentImage (storage st)
  /\ Hook.messagesReceived h = 2.
Proof.
  assert (Hin : 1%nat ∈ clients (run sample_env
            [Connection 1; PostJson "id-1" 5 (Base64Body "AAAA" None);
             Received 1 (ping 6);
             PostJson "id-2" 9 (Base64Body "SUkqAA==" None)] init_server)).
  { rewrite run_cons. apply run_keeps; [reflexivity | apply connection_joined]. }
  split; [reflexivity|]. split; [vm_compute; reflexivity|].
  destruct (subscriber_shows_current_image sample_env
              [Connection 1; PostJson "id-1" 5 (Base64Body "AAAA" None);
               Received 1 (ping 6);
               PostJson "id-2" 9 (Base64Body "SUkqAA==" None)]
              1%nat [5; 9] eq_refl Hin
              ltac:(vm_compute; reflexivity) ltac:(vm_compute; reflexivity))
    as (Hc & Hn & _).
  split; [exact Hc|]. rewrite Hn. vm_compute. reflexivity.
Defined.

(** X12. The uptime text never overstates the time elapsed and understates
    it by less than one unit of its last field: below a minute it shows the
    whole seconds; below an hour the minutes and the seconds under 60; from
    an hour on the hours and the minutes under 60, the seconds dropped. *)
Theorem uptime_text_bounds (elapsed : Z) :
  0 <= elapsed ->
  (elapsed < 60000
   /\ exists s, 0 <= s < 60
        /\ Hook.uptime_text elapsed = JS.toString s +:+ "s"
        /\ s * 1000 <= elapsed < (s + 1) * 1000)
  \/ (60000 <= elapsed < 3600000
      /\ exists m s, 1 <= m < 60 /\ 0 <= s < 60
           /\ Hook.uptime_text elapsed
              = JS.toString m +:+ "m " +:+ JS.toString s +:+ "s"
           /\ (60 * m + s) * 1000 <= elapsed < (60 * m + s + 1) * 1000)
  \/ (3600000 <= elapsed
      /\ exists h m, 1 <= h /\ 0 <= m < 60
           /\ Hook.uptime_text elapsed
              = JS.toString h +:+ "h " +:+ JS.toString m +:+ "m"
           /\ (60 * h + m) * 60000 <= elapsed < (60 * h + m + 1) * 60000).
Proof.
  intros H0. unfold Hook.uptime_text. cbv zeta.
  destruct (0 <? elapsed / 1000 / 60 / 60) eqn:Hh.
  - apply Z.ltb_lt in Hh. right. right.
    split; [Z.to_euclidean_division_equations; lia|].
    exists (elapsed / 1000 / 60 / 60), (Z.rem (elapsed / 1000 / 60) 60).
    split; [lia|]. split; [Z.to_euclidean_division_equations; lia|].
    split; [reflexivity|]. Z.to_euclidean_division_equations; lia.
  - apply Z.ltb_ge in Hh.
    destruct (0 <? elapsed / 1000 / 60) eqn:Hm.
    + apply Z.ltb_lt in Hm. right. left.
      split; [Z.to_euclidean_division_equations; lia|].
      exists (elapsed / 1000 / 60), (Z.rem (elapsed / 1000) 60).
      split; [Z.to_euclidean_division_equations; lia|].
      split; [Z.to_euclidean_division_equations; lia|].
      split; [reflexivity|]. Z.to_euclidean_division_equations; lia.
    + apply Z.ltb_ge in Hm. left.
      split; [Z.to_euclidean_division_equations; lia|].
      exists (elapsed / 1000).
      split; [Z.to_euclidean_division_equations; lia|].
      split; [reflexivity|]. Z.to_euclidean_division_equations; lia.
Qed.

Lemma uptime_text_bounds_witness :
  0 <= 3725000 /\ Hook.uptime_text 3725000 = "1h 2m".
Proof.
  split; [lia|].
  destruct (uptime_text_bounds 3725000 ltac:(lia))
    as [[Hlt _] | [[[_ Hlt] _] | [_ (h & m & Hh & Hm & Htext & Hlo & Hhi)]]];
    try lia.
  assert (h = 1 /\ m = 2) as [-> ->] by lia. exact Htext.
Defined.

(** ** The dotted-quad test against a digit-by-digit reading *)

Section Strict.

Lemma digit_char (c : ascii) (v : Z) :
  JS.digit_val 10 c = Some v -> 0 <= v <= 9 /\ c = digit_ascii v.
Proof.
  destruct c as [[] [] [] [] [] [] [] []]; intros H; vm_compute in H;
    try discriminate H; injection H as <-; (split; [lia | reflexivity]).
Qed.

Lemma octet_unfold (c : ascii) (s : string) :
  SpecAddr.octet (String c s)
  = if Ascii.eqb c "0" && match s with EmptyString => false | _ => true end
    then None
    else if JS.all_digits (String c s) then
           if JS.digits_from 10 0 (String c s) <=? 255
           then Some (JS.digits_from 10 0 (String c s)) else None
         else None.
Proof.
  destruct c as [[] [] [] [] [] [] [] []]; destruct s; reflexivity.
Qed.

Lemma digits_from_ge (s : string) (acc : Z) :
  0 <= acc -> acc <= JS.digits_from 10 acc s.
Proof.
  revert acc. induction s as [|c s IH]; intros acc Hacc; cbn [JS.digits_from]; [lia|].
  destruct (JS.digit_val 10 c) as [v|] eqn:Hv; [|lia].
  destruct (digit_char c v Hv) as [Hr _].
  specialize (IH (10 * acc + v) ltac:(lia)). lia.
Qed.

(** Four digits or more without a leading zero are more than 255. *)
Lemma octet_long (c1 c2 c3 c4 : ascii) (rest : string) :
  SpecAddr.octet (String c1 (String c2 (String c3 (String c4 rest)))) = None.
Proof.
  rewrite octet_unfold.
  destruct (Ascii.eqb c1 "0") eqn:H0; [reflexivity|]. cbn [andb].
  cbn [JS.all_digits JS.digits_from].
  destruct (JS.digit_val 10 c1) as [v1|] eqn:H1; [|reflexivity].
  destruct (JS.digit_val 10 c2) as [v2|] eqn:H2; [|reflexivity].
  destruct (JS.digit_val 10 c3) as [v3|] eqn:H3; [|reflexivity].
  destruct (JS.digit_val 10 c4) as [v4|] eqn:H4; [|reflexivity].
  destruct (JS.all_digits rest); [|reflexivity].
  destruct (digit_char c1 v1 H1) as [R1 E1], (digit_char c2 v2 H2) as [R2 _],
           (digit_char c3 v3 H3) as [R3 _], (digit_char c4 v4 H4) as [R4 _].
  assert (v1 <> 0).
  { intros ->. rewrite E1 in H0. discriminate H0. }
  pose proof (digits_from_ge rest
                (10 * (10 * (10 * (10 * 0 + v1) + v2) + v3) + v4) ltac:(lia)).
  destruct (_ <=? 255) eqn:Hle; [apply Z.leb_le in Hle; lia | reflexivity].
Qed.

Lemma all_digits_chars (c : ascii) (s : string) :
  JS.all_digits (String c s) = true ->
  exists v, 0 <= v < 10 /\ c = digit_ascii v /\ JS.all_digits s = true.
Proof.
  cbn [JS.all_digits].
  destruct (JS.digit_val 10 c) as [v|] eqn:Hv; [|discriminate].
  destruct (digit_char c v Hv) as [Hr ->]. intros Hs. exists v.
  repeat split; [lia | lia | exact Hs].
Qed.

Lemma octet_digits (c : ascii) (s : string) (n : Z) :
  SpecAddr.octet (String c s) = Some n -> JS.all_digits (String c s) = true.
Proof.
  rewrite octet_unfold. destruct (_ && _); [discriminate|].
  now destruct (JS.all_digits (String c s)).
Qed.

(** What the specification's octet reads, [isIPv4] accepts. *)
Lemma octet_part_ok (p : string) (n : Z) :
  SpecAddr.octet p = Some n -> part_ok p = true.
Proof.
  intros Hoct.
  assert (Hacc : octet_accepted p = true);
    [|unfold octet_accepted in Hacc; now rewrite Hoct in Hacc].
  destruct p as [|c1 [|c2 [|c3 [|c4 rest]]]].
  - discriminate Hoct.
  - destruct (all_digits_chars _ _ (octet_digits _ _ _ Hoct)) as (v1 & R1 & -> & _).
    apply (forallb_below_Z 10
             (fun v1 => octet_accepted (String (digit_ascii v1) EmptyString)));
      [vm_compute; reflexivity | lia].
  - destruct (all_digits_chars _ _ (octet_digits _ _ _ Hoct)) as (v1 & R1 & -> & D2).
    destruct (all_digits_chars _ _ D2) as (v2 & R2 & -> & _).
    pose proof (forallb_below_Z 10
      (fun v1 => forallb (fun v2 =>
         octet_accepted (String (digit_ascii v1) (String (digit_ascii v2) EmptyString)))
         (map Z.of_nat (seq 0 10)))
      ltac:(vm_compute; reflexivity) v1 ltac:(lia)) as H1.
    apply (forallb_below_Z 10 _ H1 v2). lia.
  - destruct (all_digits_chars _ _ (octet_digits _ _ _ Hoct)) as (v1 & R1 & -> & D2).
    destruct (all_digits_chars _ _ D2) as (v2 & R2 & -> & D3).
    destruct (all_digits_chars _ _ D3) as (v3 & R3 & -> & _).
    pose proof (forallb_below_Z 10
      (fun v1 => forallb (fun v2 => forallb (fun v3 =>
         octet_accepted (String (digit_ascii v1) (String (digit_ascii v2)
                           (String (digit_ascii v3) EmptyString))))
         (map Z.of_nat (seq 0 10))) (map Z.of_nat (seq 0 10)))
      ltac:(vm_compute; reflexivity) v1 ltac:(lia)) as H1.
    pose proof (forallb_below_Z 10 _ H1 v2 ltac:(lia)) as H2.
    apply (forallb_below_Z 10 _ H2 v3). lia.
  - rewrite octet_long in Hoct. discriminate Hoct.
Qed.

Lemma octet_toString (n : Z) :
  0 <= n <= 255 -> SpecAddr.octet (JS.toString n) = Some n.
Proof.
  intros Hn.
  pose proof (forallb_below_Z 256 octet_reads
                ltac:(vm_compute; reflexivity) n ltac:(lia)) as H.
  unfold octet_reads in H.
  destruct (SpecAddr.octet (JS.toString n)) as [m|]; [|discriminate].
  apply Z.eqb_eq in H. now subst.
Qed.

Lemma ipv4_dotted (a b c d : Z) :
  octets a b c d -> SpecAddr.ipv4 (dotted a b c d) = Some [a; b; c; d].
Proof.
  intros Ho. unfold SpecAddr.ipv4. rewrite (split_dotted _ _ _ _ Ho).
  destruct Ho as (Ha & Hb & Hc & Hd).
  now rewrite !octet_toString.
Qed.

End Strict.

(** X13. [isIPv4], written with [parseInt] and [toString], accepts exactly
    the strings that read digit by digit as four dot-separated octets:
    digits only, no leading zero, at most 255. On those strings
    [isPrivateIP] is the classification by range. *)
Theorem isIPv4_reads_octets (s : string) :
  (isIPv4 s = true <-> exists a b c d, SpecAddr.ipv4 s = Some [a; b; c; d])
  /\ (isIPv4 s = true -> isPrivateIP s = SpecAddr.is_private s).
Proof.
  split; [split|].
  - intros H. destruct (isIPv4_inv s H) as (a & b & c & d & Ho & ->).
    exists a, b, c, d. now apply ipv4_dotted.
  - intros (a & b & c & d & H). rewrite isIPv4_parts.
    unfold SpecAddr.ipv4 in H.
    destruct (JS.split "." s) as [|p1 [|p2 [|p3 [|p4 [|p5 rest]]]]];
      try discriminate H.
    destruct (SpecAddr.octet p1) eqn:H1; [|discriminate H].
    destruct (SpecAddr.octet p2) eqn:H2; [|discriminate H].
    destruct (SpecAddr.octet p3) eqn:H3; [|discriminate H].
    destruct (SpecAddr.octet p4) eqn:H4; [|discriminate H].
    cbn [forallb length Nat.eqb].
    now rewrite (octet_part_ok _ _ H1), (octet_part_ok _ _ H2),
      (octet_part_ok _ _ H3), (octet_part_ok _ _ H4).
  - intros H. destruct (isIPv4_inv s H) as (a & b & c & d & Ho & ->).
    rewrite (isPrivateIP_dotted _ _ _ _ Ho).
    unfold SpecAddr.is_private. now rewrite (ipv4_dotted _ _ _ _ Ho).
Qed.

Lemma isIPv4_reads_octets_witness :
  isIPv4 "192.168.1.20" = true
  /\ isPrivateIP "192.168.1.20" = SpecAddr.is_private "192.168.1.20".
Proof.
  split; [reflexivity|].
  exact (proj2 (isIPv4_reads_octets "192.168.1.20") eq_refl).
Defined.

(** ** Sockets outside the registry, and what a response hands back *)

Section Silent.

Variable E : Env.

Lemma unregistered_step (w : nat) (ev : Event) (st : Server) :
  joins w ev = false ->
  w ∉ clients st ->
  (w ∉ clients (step E ev st)) /\ sent (step E ev st) w = sent st w.
Proof.
  intros Hev Hout.
  destruct (is_post ev) eqn:Hpost.
  - destruct (post_cases E ev st Hpost)
      as (st0 & (_ & Hcl & Hsock & _) & [[-> _] | (image & -> & _)]);
      destruct (sent_eq st st0 w ltac:(now rewrite Hsock)) as [Hs _].
    + rewrite Hcl, Hs. now split.
    + rewrite committed_clients, committed_sent, Hcl, Hs.
      split; [exact Hout|].
      now rewrite (bool_decide_eq_false_2 _ Hout).
  - destruct ev as [w'|w'|w'|w' m|ms|uuid now body|uuid now part];
      try discriminate Hpost; try (now split); cbn [joins] in Hev.
    + apply Nat.eqb_neq in Hev.
      destruct (sent_eq st _ w (connection_other E w w' st ltac:(congruence)))
        as [-> _].
      rewrite connection_clients. split; [|reflexivity].
      intros Hin. apply elem_of_union in Hin as [Hin|Hin]; [|now apply Hout].
      apply elem_of_singleton in Hin. congruence.
    + split.
      * cbn. intros Hin. now apply elem_of_difference in Hin as [Hin _].
      * unfold sent. cbn [step on_close clients_delete ws_closed sockets].
        destruct (Nat.eq_dec w w') as [->|Hne].
        -- rewrite lookup_alter_eq. now destruct (sockets st !! w').
        -- now rewrite lookup_alter_ne by congruence.
    + split; [|reflexivity].
      cbn. intros Hin. now apply elem_of_difference in Hin as [Hin _].
Qed.

End Silent.

(** X14. A socket that is not in the registry is written nothing, through
    any uploads and any other events, until its own next handshake: once
    its close or error has taken it out, no fan-out reaches it. *)
Theorem unregistered_socket_is_silent
        (E : Env) (evs : list Event) (st : Server) (w : nat) :
  w ∉ clients st ->
  forallb (fun ev => negb (joins w ev)) evs = true ->
  (w ∉ clients (run E evs st)) /\ sent (run E evs st) w = sent st w.
Proof.
  revert st. induction evs as [|ev evs IH]; intros st Hout Hall; [now split|].
  cbn [forallb] in Hall. apply andb_prop in Hall as [Hev Hall].
  apply negb_true_iff in Hev.
  destruct (unregistered_step E w ev st Hev Hout) as [Hout' Hsent].
  rewrite run_cons. destruct (IH _ Hout' Hall) as [Hout'' Hsent'].
  split; [exact Hout''|]. now rewrite Hsent', Hsent.
Qed.

Lemma unregistered_socket_is_silent_witness :
  let st := run sample_env [Connection 1; Errored 1] init_server in
  let evs := [PostJson "id-1" 5 (Base64Body "AAAA" None); Connection 2;
              PostJson "id-2" 9 (Base64Body "SUkqAA==" None)] in
  (1%nat ∉ clients st)
  /\ forallb (fun ev => negb (joins 1 ev)) evs = true
  /\ socket_open st 1 = true
  /\ sent (run sample_env evs st) 1 = [].
Proof.
  assert (Hout : 1%nat ∉ clients (run sample_env [Connection 1; Errored 1] init_server))
    by apply step_drops.
  split; [exact Hout|]. split; [reflexivity|]. split; [vm_compute; reflexivity|].
  rewrite (proj2 (unregistered_socket_is_silent sample_env
                    [PostJson "id-1" 5 (Base64Body "AAAA" None); Connection 2;
                     PostJson "id-2" 9 (Base64Body "SUkqAA==" None)]
                    _ 1%nat Hout eq_refl)).
  vm_compute; reflexivity.
Defined.

(** X15. The identifier in the body of a 200 answer, of either route,
    retrieves from the store the image just stored, and the dimensions,
    format, size and time stamp in that body are those of the image. *)
Theorem response_identifies_stored_image
        (E : Env) (uuid : string) (now : Z) (st : Server) :
  (forall body r st',
      upload_json E uuid now body st = (Some r, st') ->
      status r = 200 ->
      exists data image,
        payload r = Some data
        /\ MemStorage.getImage (data_id data) (storage st') = Some image
        /\ data_width data = Image.width image
        /\ data_height data = Image.height image
        /\ data_format data = Image.format image
        /\ data_size data = Image.size image
        /\ data_timestamp data = Image.uploadedAt image)
  /\ (forall part r st',
        upload_multipart E uuid now part st = (inr (Some r), st') ->
        status r = 200 ->
        exists data image,
          payload r = Some data
          /\ MemStorage.getImage (data_id data) (storage st') = Some image
          /\ data_width data = Image.width image
          /\ data_height data = Image.height image
          /\ data_format data = Image.format image
          /\ data_size data = Image.size image
          /\ data_timestamp data = Image.uploadedAt image).
Proof.
  split.
  - intros body r st' Hroute Hok.
    destruct (json_cases E uuid now body st)
      as (st0 & _ & [(r0 & Hr & Hstatus) | (image & Hr & _)]);
      rewrite Hr in Hroute; injection Hroute as <- <-.
    + destruct Hstatus as [H|H]; rewrite H in Hok; discriminate Hok.
    + eexists _, image. split; [reflexivity|].
      split; [apply committed_getImage|]. now repeat split.
  - intros part r st' Hroute Hok.
    destruct (multipart_cases E uuid now part st)
      as [(err & Hr) | [(r0 & Hr & Hstatus) | (image & Hr & _)]];
      rewrite Hr in Hroute; try discriminate Hroute; injection Hroute as <- <-.
    + rewrite Hstatus in Hok. discriminate Hok.
    + eexists _, image. split; [reflexivity|].
      split; [apply committed_getImage|]. now repeat split.
Qed.

Lemma response_identifies_stored_image_witness :
  let result := upload_json sample_env "id-1" 5
                  (UrlBody "http://cdn.example/scan.tiff") init_server in
  exists r data image,
    fst result = Some r
    /\ status r = 200
    /\ payload r = Some data
    /\ MemStorage.getImage (data_id data) (storage (snd result)) = Some image
    /\ data_size data = Image.size image.
Proof.
  destruct (proj1 (response_identifies_stored_image sample_env "id-1" 5 init_server)
              (UrlBody "http://cdn.example/scan.tiff") _ _ eq_refl eq_refl)
    as (data & image & Hp & Hget & _ & _ & _ & Hsize & _).
  eexists _, data, image. split; [reflexivity|]. split; [reflexivity|].
  split; [exact Hp|]. split; [exact Hget | exact Hsize].
Defined.
